(** * The chat store of AXL_MUSIC_NET (frontend/src/stores/useChatStore.ts)

    A shallow embedding of the zustand store: the store's fields as a record,
    every [set] call as one atomic update of that record, the socket.io
    singleton as a second record holding the registered listeners, and every
    [await] as a case split on how the request settled. *)

From Stdlib Require Import ZArith Lia.
From stdpp Require Import base tactics option list strings gmap.

Local Open Scope Z_scope.

(** ** Data model *)

(** Modelled from the spec: the [User] type of "@/types", which is imported but
    not part of the store's file; the fields are the ones the store reads. *)
Module User.
Record t := mk {
  clerkId : string;
  fullName : string;
  imageUrl : string;
}.
End User.

(** Modelled from the spec: the [Message] type of "@/types", which is imported
    but not part of the store's file; [_id], [senderId], [receiverId],
    [content] and [createdAt] are read by the store, [replyToId] is the
    optional field the spec lists. *)
Module Message.
Record t := mk {
  _id : string;
  senderId : string;
  receiverId : string;
  content : string;
  createdAt : string;
  replyToId : option string;
}.
End Message.

Inductive NotificationType :=
  | message
  | follow_request
  | follow_accepted
  | follow_rejected
  | follow_back_request.

Module Notification.
Record t := mk {
  id : string;
  senderId : string;
  senderName : string;
  senderImageUrl : string;
  content : string;
  timestamp : string;
  isRead : bool;
  type : NotificationType;
}.

(** The object spread [{ ...n, isRead: true }]. *)
Definition read (n : t) : t :=
  mk (id n) (senderId n) (senderName n) (senderImageUrl n) (content n)
     (timestamp n) true (type n).
End Notification.

(** What [new Date(s).getTime()] yields: milliseconds since the epoch, or NaN
    for a string that is not a date. *)
Inductive EpochTime :=
  | NaN
  | Millis (ms : Z).

(** The fields of [ChatStore] that hold data. The [socket] field is a
    reference to the module's socket singleton, which is kept beside the
    store in [World] below. [unreadNotificationsCount] is a JavaScript number
    that only ever holds integers. *)
Record ChatStore := mkStore {
  users : list User.t;
  isLoading : bool;
  error : option string;
  isConnected : bool;
  onlineUsers : gset string;
  userActivities : gmap string string;
  messages : list Message.t;
  selectedUser : option User.t;
  notifications : list Notification.t;
  unreadNotificationsCount : Z;
  lastMessageTime : gmap string EpochTime;
  replyTo : option Message.t;
}.

Definition initialStore : ChatStore :=
  mkStore [] false None false ∅ ∅ [] None [] 0 ∅ None.

(** *** Partial updates

    zustand's [set] merges the given fields into the state in one step; one
    setter per field, composed inside one definition, stands for one [set]. *)

Definition set_users (v : list User.t) (s : ChatStore) : ChatStore :=
  mkStore v (isLoading s) (error s) (isConnected s) (onlineUsers s)
    (userActivities s) (messages s) (selectedUser s) (notifications s)
    (unreadNotificationsCount s) (lastMessageTime s) (replyTo s).

Definition set_isLoading (v : bool) (s : ChatStore) : ChatStore :=
  mkStore (users s) v (error s) (isConnected s) (onlineUsers s)
    (userActivities s) (messages s) (selectedUser s) (notifications s)
    (unreadNotificationsCount s) (lastMessageTime s) (replyTo s).

Definition set_error (v : option string) (s : ChatStore) : ChatStore :=
  mkStore (users s) (isLoading s) v (isConnected s) (onlineUsers s)
    (userActivities s) (messages s) (selectedUser s) (notifications s)
    (unreadNotificationsCount s) (lastMessageTime s) (replyTo s).

Definition set_isConnected (v : bool) (s : ChatStore) : ChatStore :=
  mkStore (users s) (isLoading s) (error s) v (onlineUsers s)
    (userActivities s) (messages s) (selectedUser s) (notifications s)
    (unreadNotificationsCount s) (lastMessageTime s) (replyTo s).

Definition set_onlineUsers (v : gset string) (s : ChatStore) : ChatStore :=
  mkStore (users s) (isLoading s) (error s) (isConnected s) v
    (userActivities s) (messages s) (selectedUser s) (notifications s)
    (unreadNotificationsCount s) (lastMessageTime s) (replyTo s).

Definition set_userActivities (v : gmap string string) (s : ChatStore)
  : ChatStore :=
  mkStore (users s) (isLoading s) (error s) (isConnected s) (onlineUsers s)
    v (messages s) (selectedUser s) (notifications s)
    (unreadNotificationsCount s) (lastMessageTime s) (replyTo s).

Definition set_messages (v : list Message.t) (s : ChatStore) : ChatStore :=
  mkStore (users s) (isLoading s) (error s) (isConnected s) (onlineUsers s)
    (userActivities s) v (selectedUser s) (notifications s)
    (unreadNotificationsCount s) (lastMessageTime s) (replyTo s).

Definition set_selectedUser (v : option User.t) (s : ChatStore) : ChatStore :=
  mkStore (users s) (isLoading s) (error s) (isConnected s) (onlineUsers s)
    (userActivities s) (messages s) v (notifications s)
    (unreadNotificationsCount s) (lastMessageTime s) (replyTo s).

Definition set_notifications (v : list Notification.t) (s : ChatStore)
  : ChatStore :=
  mkStore (users s) (isLoading s) (error s) (isConnected s) (onlineUsers s)
    (userActivities s) (messages s) (selectedUser s) v
    (unreadNotificationsCount s) (lastMessageTime s) (replyTo s).

Definition set_unreadNotificationsCount (v : Z) (s : ChatStore) : ChatStore :=
  mkStore (users s) (isLoading s) (error s) (isConnected s) (onlineUsers s)
    (userActivities s) (messages s) (selectedUser s) (notifications s)
    v (lastMessageTime s) (replyTo s).

Definition set_lastMessageTime (v : gmap string EpochTime) (s : ChatStore)
  : ChatStore :=
  mkStore (users s) (isLoading s) (error s) (isConnected s) (onlineUsers s)
    (userActivities s) (messages s) (selectedUser s) (notifications s)
    (unreadNotificationsCount s) v (replyTo s).

Definition set_replyTo (v : option Message.t) (s : ChatStore) : ChatStore :=
  mkStore (users s) (isLoading s) (error s) (isConnected s) (onlineUsers s)
    (userActivities s) (messages s) (selectedUser s) (notifications s)
    (unreadNotificationsCount s) (lastMessageTime s) v.

(** ** Synchronous actions of the store *)

Definition setSelectedUser (user : option User.t) : ChatStore → ChatStore :=
  set_selectedUser user.

Definition setReplyTo (m : option Message.t) : ChatStore → ChatStore :=
  set_replyTo m.

(** [notifications.map(n => n.id === notificationId ? {...n, isRead: true} : n)]
    together with [Math.max(0, state.unreadNotificationsCount - 1)], in one
    [set]. *)
Definition markNotificationAsRead (notificationId : string) (s : ChatStore)
  : ChatStore :=
  set_unreadNotificationsCount (Z.max 0 (unreadNotificationsCount s - 1))
    (set_notifications
       (map (λ n, if decide (Notification.id n = notificationId)
                  then Notification.read n else n)
            (notifications s))
       s).

(** [Array.prototype.find]: the first element the test accepts. *)
Definition find_notification (notificationId : string)
    (l : list Notification.t) : option Notification.t :=
  List.find (λ n, bool_decide (Notification.id n = notificationId)) l.

(** [notification && !notification.isRead] *)
Definition wasUnread (notificationId : string) (s : ChatStore) : bool :=
  match find_notification notificationId (notifications s) with
  | Some n => negb (Notification.isRead n)
  | None => false
  end.

Definition dismissNotification (notificationId : string) (s : ChatStore)
  : ChatStore :=
  set_unreadNotificationsCount
    (if wasUnread notificationId s
     then Z.max 0 (unreadNotificationsCount s - 1)
     else unreadNotificationsCount s)
    (set_notifications
       (filter (λ n, Notification.id n ≠ notificationId) (notifications s))
       s).

(** ** The fetch transport *)

(** The rejection value of an axios call, as far as the store reads it:
    [error.response?.data?.message] and [error.message]. *)
Module AxiosError.
Record t := mk {
  response_data_message : option string;
  message : string;
}.
End AxiosError.

(** [error.response?.data?.message || error.message]: the server's message
    when there is one and it is not the empty string, the error's own message
    otherwise. *)
Definition error_text (e : AxiosError.t) : string :=
  match AxiosError.response_data_message e with
  | Some m => if decide (m = "") then AxiosError.message e else m
  | None => AxiosError.message e
  end.

(** How an awaited request settles. *)
Inductive Response (A : Type) :=
  | resolved (data : A)
  | rejected (e : AxiosError.t).
Arguments resolved {A} data.
Arguments rejected {A} e.

(** [fetchUsers], [fetchMessages] and [searchUsers] have the same shape: one
    [set] before the [await], then the [try]/[catch] branch and the
    [finally]. Other handlers may run between the two halves. *)
Definition fetch_begin (s : ChatStore) : ChatStore :=
  set_error None (set_isLoading true s).

Definition fetch_settle {A : Type} (store_data : A → ChatStore → ChatStore)
    (r : Response A) (s : ChatStore) : ChatStore :=
  set_isLoading false
    match r with
    | resolved data => store_data data s
    | rejected e => set_error (Some (error_text e)) s
    end.

Definition fetchUsers_settle
  : Response (list User.t) → ChatStore → ChatStore :=
  fetch_settle set_users.

Definition fetchUsers (r : Response (list User.t)) (s : ChatStore)
  : ChatStore :=
  fetchUsers_settle r (fetch_begin s).

Definition fetchMessages_settle
  : Response (list Message.t) → ChatStore → ChatStore :=
  fetch_settle set_messages.

Definition fetchMessages (userId : string) (r : Response (list Message.t))
    (s : ChatStore) : ChatStore :=
  fetchMessages_settle r (fetch_begin s).

Definition searchUsers_settle
  : Response (list User.t) → ChatStore → ChatStore :=
  fetch_settle set_users.

Definition searchUsers (query : string) (r : Response (list User.t))
    (s : ChatStore) : ChatStore :=
  searchUsers_settle r (fetch_begin s).

(** ** The socket singleton and the console *)

Inductive EventName :=
  | ev_users_online
  | ev_activities
  | ev_user_connected
  | ev_user_disconnected
  | ev_receive_message
  | ev_message_unsent
  | ev_message_sent.

Global Instance EventName_eq_dec : EqDecision EventName.
Proof. solve_decision. Defined.

(** An inbound event with its payload. *)
Inductive InboundEvent :=
  | users_online (ids : list string)
  | activities (pairs : list (string * string))
  | user_connected (userId : string)
  | user_disconnected (userId : string)
  | receive_message (m : Message.t)
  | message_unsent (messageId : string)
  | message_sent (m : Message.t).

Definition event_name (ev : InboundEvent) : EventName :=
  match ev with
  | users_online _ => ev_users_online
  | activities _ => ev_activities
  | user_connected _ => ev_user_connected
  | user_disconnected _ => ev_user_disconnected
  | receive_message _ => ev_receive_message
  | message_unsent _ => ev_message_unsent
  | message_sent _ => ev_message_sent
  end.

Inductive OutboundEvent :=
  | emit_user_connected (userId : string)
  | emit_send_message (receiverId senderId content : string).

(** The socket.io client: [auth], whether [connect()] was the last of
    [connect()]/[disconnect()], what was emitted, and the listeners in the
    order [on] added them. The store only ever registers its own handler of
    an event under that event's name, so a listener is its event name. *)
Record Socket := mkSocket {
  auth : option string;
  connected : bool;
  emitted : list OutboundEvent;
  listeners : list EventName;
}.

Definition io : Socket := mkSocket None false [] [].

Inductive LogEntry :=
  | console_log (text arg : string)
  | console_error (text : string) (e : AxiosError.t).

Record World := mkWorld {
  store : ChatStore;
  socket : Socket;
  console : list LogEntry;
}.

Definition initialWorld : World := mkWorld initialStore io [].

Definition with_store (f : ChatStore → ChatStore) (w : World) : World :=
  mkWorld (f (store w)) (socket w) (console w).

Definition socket_on (name : EventName) (k : Socket) : Socket :=
  mkSocket (auth k) (connected k) (emitted k) (listeners k ++ [name]).

Definition socket_emit (e : OutboundEvent) (k : Socket) : Socket :=
  mkSocket (auth k) (connected k) (emitted k ++ [e]) (listeners k).

(** ** Handlers of inbound events *)

(** [new Map(activities)]: a later pair overrides an earlier one. *)
Definition new_Map (pairs : list (string * string)) : gmap string string :=
  foldl (λ m p, <[p.1 := p.2]> m) ∅ pairs.

Definition on_users_online (ids : list string) : ChatStore → ChatStore :=
  set_onlineUsers (list_to_set ids).

Definition on_activities (pairs : list (string * string))
  : ChatStore → ChatStore :=
  set_userActivities (new_Map pairs).

(** [new Set([...state.onlineUsers, userId])] *)
Definition on_user_connected (userId : string) (s : ChatStore) : ChatStore :=
  set_onlineUsers (onlineUsers s ∪ {[userId]}) s.

(** A copy of the set with [userId] deleted. *)
Definition on_user_disconnected (userId : string) (s : ChatStore) : ChatStore :=
  set_onlineUsers (onlineUsers s ∖ {[userId]}) s.

Definition on_message_unsent (messageId : string) (s : ChatStore) : ChatStore :=
  set_messages (filter (λ msg, Message._id msg ≠ messageId) (messages s)) s.

(** [get().users.find((u) => u.clerkId === senderId)] *)
Definition find_user (clerkId : string) (l : list User.t) : option User.t :=
  List.find (λ u, bool_decide (User.clerkId u = clerkId)) l.

Definition message_notification (sender : User.t) (m : Message.t)
  : Notification.t :=
  Notification.mk (Message._id m) (Message.senderId m) (User.fullName sender)
    (User.imageUrl sender) (Message.content m) (Message.createdAt m)
    false message.

Section Handlers.

(** [new Date(s).getTime()], the JavaScript engine's date parser. *)
Variable Date_getTime : string → EpochTime.

(** The first [set] of the [receive_message] handler. *)
Definition receive_message_ledger (m : Message.t) (s : ChatStore)
  : ChatStore :=
  set_lastMessageTime
    (<[Message.senderId m := Date_getTime (Message.createdAt m)]>
       (lastMessageTime s))
    (set_messages (messages s ++ [m]) s).

(** The rest of the handler: the directory lookup on the state the first
    [set] left, and the second [set] when the sender is found. *)
Definition receive_message_notify (m : Message.t) (s : ChatStore)
  : ChatStore :=
  match find_user (Message.senderId m) (users s) with
  | Some sender =>
      set_unreadNotificationsCount (unreadNotificationsCount s + 1)
        (set_notifications
           (message_notification sender m :: notifications s) s)
  | None => s
  end.

Definition on_receive_message (m : Message.t) (s : ChatStore) : ChatStore :=
  receive_message_notify m (receive_message_ledger m s).

Definition on_message_sent (m : Message.t) (s : ChatStore) : ChatStore :=
  set_lastMessageTime
    (<[Message.receiverId m := Date_getTime (Message.createdAt m)]>
       (lastMessageTime s))
    (set_messages (messages s ++ [m]) s).

(** What one registered listener of [event_name ev] does with [ev]. *)
Definition handle (ev : InboundEvent) : ChatStore → ChatStore :=
  match ev with
  | users_online ids => on_users_online ids
  | activities pairs => on_activities pairs
  | user_connected userId => on_user_connected userId
  | user_disconnected userId => on_user_disconnected userId
  | receive_message m => on_receive_message m
  | message_unsent messageId => on_message_unsent messageId
  | message_sent m => on_message_sent m
  end.

(** The transport delivers [ev]: every listener registered under its name
    runs, in registration order. *)
Definition deliver (ev : InboundEvent) (w : World) : World :=
  with_store
    (λ s, foldl (λ acc _, handle ev acc) s
            (filter (λ name, name = event_name ev) (listeners (socket w))))
    w.

End Handlers.

(** ** Connection lifecycle *)

Definition register_handlers (k : Socket) : Socket :=
  socket_on ev_message_sent
    (socket_on ev_message_unsent
      (socket_on ev_receive_message
        (socket_on ev_user_disconnected
          (socket_on ev_user_connected
            (socket_on ev_activities
              (socket_on ev_users_online k)))))).

Definition initSocket (userId : string) (w : World) : World :=
  if isConnected (store w) then w
  else
    let k := socket w in
    let k := mkSocket (Some userId) (connected k) (emitted k) (listeners k) in
    let k := mkSocket (auth k) true (emitted k) (listeners k) in
    let k := socket_emit (emit_user_connected userId) k in
    let k := register_handlers k in
    mkWorld (set_isConnected true (store w)) k
      (console w ++ [console_log "Initializing socket for userId:" userId]).

Definition disconnectSocket (w : World) : World :=
  if isConnected (store w) then
    let k := socket w in
    mkWorld (set_isConnected false (store w))
      (mkSocket (auth k) false (emitted k) (listeners k))
      (console w)
  else w.

(** [get().socket] is the singleton, which is never falsy. *)
Definition sendMessage (receiverId senderId content : string) (w : World)
  : World :=
  mkWorld (store w)
    (socket_emit (emit_send_message receiverId senderId content) (socket w))
    (console w).

(** ** Best-effort commands *)

Definition unsendMessage (messageId : string) (r : Response unit) (w : World)
  : World :=
  match r with
  | resolved _ =>
      with_store
        (λ s, set_messages
                (filter (λ msg, Message._id msg ≠ messageId) (messages s)) s)
        w
  | rejected e =>
      mkWorld (store w) (socket w)
        (console w ++ [console_error "Error unsending message:" e])
  end.

Definition sendReplyMessage (receiverId content : string)
    (replyToId : option string) (r : Response Message.t) (w : World) : World :=
  match r with
  | resolved newMessage =>
      with_store
        (λ s, set_replyTo None (set_messages (messages s ++ [newMessage]) s))
        w
  | rejected e =>
      mkWorld (store w) (socket w)
        (console w ++ [console_error "Error sending reply message:" e])
  end.

(** ** Vocabulary of the properties *)

(** The number of notifications in a list with [isRead = false]. *)
Definition unread_entries (l : list Notification.t) : Z :=
  Z.of_nat (length (filter (λ n, Notification.isRead n = false) l)).

(** What [find] sees of the id: one unread entry, or none. *)
Definition unread_found (i : string) (l : list Notification.t) : Z :=
  match find_notification i l with
  | Some n => if Notification.isRead n then 0 else 1
  | None => 0
  end.

(** The derived-state invariant of the notification aggregator. *)
Definition count_agrees (s : ChatStore) : Prop :=
  unreadNotificationsCount s = unread_entries (notifications s).

Definition notification_ids (s : ChatStore) : list string :=
  map Notification.id (notifications s).

Definition message_ids (s : ChatStore) : list string :=
  map Message._id (messages s).

(** [n] is the first entry of [l] whose id is [notificationId]. *)
Definition first_match (notificationId : string) (l : list Notification.t)
    (n : Notification.t) : Prop :=
  ∃ l1 l2, l = l1 ++ n :: l2 ∧ Notification.id n = notificationId ∧
           ∀ x, x ∈ l1 → Notification.id x ≠ notificationId.

(** Every field but [onlineUsers] is the same in both states. *)
Definition same_but_onlineUsers (s s' : ChatStore) : Prop :=
  users s' = users s ∧ isLoading s' = isLoading s ∧ error s' = error s ∧
  isConnected s' = isConnected s ∧ userActivities s' = userActivities s ∧
  messages s' = messages s ∧ selectedUser s' = selectedUser s ∧
  notifications s' = notifications s ∧
  unreadNotificationsCount s' = unreadNotificationsCount s ∧
  lastMessageTime s' = lastMessageTime s ∧ replyTo s' = replyTo s.

(** How many listeners the socket holds under one event name. *)
Definition listener_count (name : EventName) (k : Socket) : nat :=
  length (filter (λ x, x = name) (listeners k)).

(** Operations on the notification list. *)
Inductive NotificationOp :=
  | do_markNotificationAsRead (notificationId : string)
  | do_dismissNotification (notificationId : string)
  | do_receive_message (m : Message.t).

(** Operations on the message ledger, with the outcome of each request. *)
Inductive LedgerOp :=
  | ledger_receive_message (m : Message.t)
  | ledger_message_sent (m : Message.t)
  | ledger_message_unsent (messageId : string)
  | ledger_fetchMessages (userId : string) (r : Response (list Message.t))
  | ledger_sendReplyMessage (receiverId content : string)
      (replyToId : option string) (r : Response Message.t)
  | ledger_unsendMessage (messageId : string) (r : Response unit).

Section Runs.

Variable Date_getTime : string → EpochTime.

Definition notification_step (o : NotificationOp) (s : ChatStore)
  : ChatStore :=
  match o with
  | do_markNotificationAsRead i => markNotificationAsRead i s
  | do_dismissNotification i => dismissNotification i s
  | do_receive_message m => on_receive_message Date_getTime m s
  end.

Definition notification_run (ops : list NotificationOp) (s : ChatStore)
  : ChatStore :=
  foldl (λ acc o, notification_step o acc) s ops.

(** The operation meets the notification list as the aggregator expects:
    a received message brings an id no notification has yet, and a
    notification marked as read is in the list and unread. *)
Definition well_targeted (o : NotificationOp) (s : ChatStore) : Prop :=
  match o with
  | do_markNotificationAsRead i =>
      ∃ n, n ∈ notifications s ∧ Notification.id n = i ∧
           Notification.isRead n = false
  | do_dismissNotification _ => True
  | do_receive_message m => Message._id m ∉ notification_ids s
  end.

Fixpoint well_targeted_run (ops : list NotificationOp) (s : ChatStore)
  : Prop :=
  match ops with
  | [] => True
  | o :: ops' =>
      well_targeted o s ∧ well_targeted_run ops' (notification_step o s)
  end.

Definition ledger_step (o : LedgerOp) (w : World) : World :=
  match o with
  | ledger_receive_message m =>
      with_store (on_receive_message Date_getTime m) w
  | ledger_message_sent m => with_store (on_message_sent Date_getTime m) w
  | ledger_message_unsent i => with_store (on_message_unsent i) w
  | ledger_fetchMessages userId r => with_store (fetchMessages userId r) w
  | ledger_sendReplyMessage receiverId content replyToId r =>
      sendReplyMessage receiverId content replyToId r w
  | ledger_unsendMessage i r => unsendMessage i r w
  end.

Definition ledger_run (ops : list LedgerOp) (w : World) : World :=
  foldl (λ acc o, ledger_step o acc) w ops.

(** The operation brings no id the ledger already has: an appended message
    is new to the ledger, and a fetched list has no id twice. *)
Definition brings_fresh_ids (o : LedgerOp) (w : World) : Prop :=
  match o with
  | ledger_receive_message m
  | ledger_message_sent m
  | ledger_sendReplyMessage _ _ _ (resolved m) =>
      Message._id m ∉ message_ids (store w)
  | ledger_fetchMessages _ (resolved data) => NoDup (map Message._id data)
  | _ => True
  end.

Fixpoint fresh_run (ops : list LedgerOp) (w : World) : Prop :=
  match ops with
  | [] => True
  | o :: ops' => brings_fresh_ids o w ∧ fresh_run ops' (ledger_step o w)
  end.

End Runs.

(** *** Values of the worked examples *)

(** A date parser for the worked examples: it agrees with the engine's on the
    one timestamp the examples use and on strings that are no date. *)
Definition sample_getTime (s : string) : EpochTime :=
  if decide (s = "2024-01-01T00:00:00.000Z") then Millis 1704067200000
  else NaN.

Definition bo : User.t := User.mk "u2" "Bo" "bo.png".

Definition m1 : Message.t :=
  Message.mk "m1" "u2" "u1" "hi" "2024-01-01T00:00:00.000Z" None.

Definition m2 : Message.t :=
  Message.mk "m2" "u2" "u1" "there" "2024-01-01T00:00:00.000Z" None.

Definition m1_notification : Notification.t :=
  Notification.mk "m1" "u2" "Bo" "bo.png" "hi" "2024-01-01T00:00:00.000Z"
    false message.

Definition directory_of_bo : ChatStore := set_users [bo] initialStore.

Definition timeout_error : AxiosError.t :=
  AxiosError.mk None "timeout of 1000ms exceeded".

(** The store once Bo's message [m1] has arrived. *)
Definition bo_wrote : ChatStore :=
  on_receive_message sample_getTime m1 directory_of_bo.

(** ... and then [m2], after which [m1]'s notification was marked as read. *)
Definition bo_wrote_twice_read_once : ChatStore :=
  markNotificationAsRead "m1" (on_receive_message sample_getTime m2 bo_wrote).

(** ** Relationship actions *)

(** The requests the relationship actions and the refresh they trigger put
    on the fetch transport. *)
Inductive HttpCall :=
  | get_users
  | post_follow (targetUserId : string)
  | post_follow_accept (requesterId : string)
  | post_follow_reject (requesterId : string)
  | delete_follow (targetUserId : string).

Global Instance HttpCall_eq_dec : EqDecision HttpCall.
Proof. solve_decision. Defined.











(** ** The three fetches as one family *)

Inductive Fetch :=
  | of_fetchUsers (r : Response (list User.t))
  | of_fetchMessages (userId : string) (r : Response (list Message.t))
  | of_searchUsers (query : string) (r : Response (list User.t)).

(** The whole of a fetch, nothing running in between. *)
Definition fetch_whole (f : Fetch) : ChatStore → ChatStore :=
  match f with
  | of_fetchUsers r => fetchUsers r
  | of_fetchMessages userId r => fetchMessages userId r
  | of_searchUsers query r => searchUsers query r
  end.

(** The half of a fetch after its [await]. *)
Definition fetch_rest (f : Fetch) : ChatStore → ChatStore :=
  match f with
  | of_fetchUsers r => fetchUsers_settle r
  | of_fetchMessages _ r => fetchMessages_settle r
  | of_searchUsers _ r => searchUsers_settle r
  end.

(** The error a fetch's request was rejected with, if it was. *)
Definition fetch_failure (f : Fetch) : option AxiosError.t :=
  match f with
  | of_fetchUsers (rejected e)
  | of_fetchMessages _ (rejected e)
  | of_searchUsers _ (rejected e) => Some e
  | _ => None
  end.

(** ** Vocabulary of the further properties *)

(** Whether an emitted event is [user_connected]. *)
Definition is_announcement (e : OutboundEvent) : bool :=
  match e with
  | emit_user_connected _ => true
  | emit_send_message _ _ _ => false
  end.

(** How often the socket announced a user: the [user_connected] events among
    what it emitted. *)
Definition announcements (k : Socket) : nat :=
  length (filter (λ e, is_announcement e = true) (emitted k)).

(** Every inbound event has one listener per announcement. *)
Definition listeners_per_announcement (w : World) : Prop :=
  ∀ name, listener_count name (socket w) = announcements (socket w).

(** The notifications a batch of received messages gives rise to, oldest
    first: one per message whose sender the directory knows. *)
Definition notifications_of (directory : list User.t)
    (msgs : list Message.t) : list Notification.t :=
  omap (λ m, (λ sender, message_notification sender m) <$>
               find_user (Message.senderId m) directory) msgs.

(** The last value a list of pairs gives for a key. *)
Definition last_value (k : string) (pairs : list (string * string))
  : option string :=
  snd <$> last (filter (λ p, p.1 = k) pairs).

(** What the connection lifecycle and the traffic on the socket do. *)
Inductive LifecycleOp :=
  | life_initSocket (userId : string)
  | life_disconnectSocket
  | life_sendMessage (receiverId senderId content : string)
  | life_deliver (ev : InboundEvent).

Section Traffic.

Variable Date_getTime : string → EpochTime.

Definition lifecycle_step (o : LifecycleOp) (w : World) : World :=
  match o with
  | life_initSocket userId => initSocket userId w
  | life_disconnectSocket => disconnectSocket w
  | life_sendMessage receiverId senderId content =>
      sendMessage receiverId senderId content w
  | life_deliver ev => deliver Date_getTime ev w
  end.

Definition lifecycle_run (ops : list LifecycleOp) (w : World) : World :=
  foldl (λ acc o, lifecycle_step o acc) w ops.

(** A batch of [receive_message] events, in the order of delivery. *)
Definition receive_all (msgs : list Message.t) (s : ChatStore) : ChatStore :=
  foldl (λ acc m, on_receive_message Date_getTime m acc) s msgs.

End Traffic.

(** A rejection that carries a message of the server. *)
Definition not_found_error : AxiosError.t :=
  AxiosError.mk (Some "User not found") "Request failed with status code 404".

(** A second user of the worked examples, whom the directory of Bo does not
    hold, and her message. *)
Definition cy : User.t := User.mk "u3" "Cy" "cy.png".

Definition m3 : Message.t :=
  Message.mk "m3" "u3" "u1" "hello" "2024-01-01T00:00:00.000Z" None.

(** ** Facts about [find] and [filter] *)

Lemma filter_id_none {A : Type} (P : A → Prop) `{∀ x, Decision (P x)}
    (l : list A) :
  (∀ x, x ∈ l → P x) → filter P l = l.
Proof.
  induction l as [|x l IH]; intros Hall; [done|].
  rewrite filter_cons_True; [|apply Hall; left].
  f_equal. apply IH. intros y Hy. apply Hall. by right.
Qed.

Lemma find_notification_None i l :
  find_notification i l = None ↔ i ∉ map Notification.id l.
Proof.
  unfold find_notification. induction l as [|x l IH]; simpl.
  - split; [intros _; apply not_elem_of_nil|done].
  - rewrite not_elem_of_cons. case_bool_decide as Hx.
    + split; [done|]. intros [Hne _]. by destruct Hne.
    + rewrite IH. split; [intros Hl; split; [congruence|done]|by intros [_ Hl]].
Qed.

Lemma find_notification_Some i l n :
  find_notification i l = Some n ↔ first_match i l n.
Proof.
  unfold find_notification, first_match. revert n.
  induction l as [|x l IH]; intros n; simpl.
  - split; [done|]. intros ([|??] & l2 & Heq & _); discriminate.
  - case_bool_decide as Hx.
    + split.
      * intros [= <-]. exists [], l. split_and!; [done..|].
        intros y Hy. by apply elem_of_nil in Hy.
      * intros ([|y l1] & l2 & Heq & Hid & Hl1); simplify_eq/=; [done|].
        exfalso. apply (Hl1 y); [left|done].
    + rewrite IH. split.
      * intros (l1 & l2 & -> & Hid & Hl1). exists (x :: l1), l2.
        split_and!; [done..|]. intros y [->|Hy]%elem_of_cons; [done|eauto].
      * intros ([|y l1] & l2 & Heq & Hid & Hl1); simplify_eq/=.
        exists l1, l2. split_and!; [done..|]. intros z Hz. apply Hl1. by right.
Qed.

Lemma unread_entries_nonneg l : 0 ≤ unread_entries l.
Proof. unfold unread_entries. lia. Qed.

Lemma unread_entries_cons n l :
  unread_entries (n :: l) =
  (if Notification.isRead n then 0 else 1) + unread_entries l.
Proof.
  unfold unread_entries. destruct (Notification.isRead n) eqn:Hn.
  - rewrite filter_cons_False; [lia|congruence].
  - rewrite filter_cons_True; [|done]. simpl length. lia.
Qed.

(** ** markNotificationAsRead *)

(** C5: [markNotificationAsRead id] keeps the list's length and order, puts
    [isRead = true] on every entry whose id matches and changes nothing else
    of it, keeps every other entry, leaves the list as it is when no entry
    matches, and makes the unread count [max 0 (count - 1)]. *)
Theorem markNotificationAsRead_effect (notificationId : string)
    (s : ChatStore) :
  let s' := markNotificationAsRead notificationId s in
  length (notifications s') = length (notifications s) ∧
  (∀ (i : nat) n, notifications s !! i = Some n →
     Notification.id n = notificationId →
     notifications s' !! i =
       Some (Notification.mk (Notification.id n) (Notification.senderId n)
               (Notification.senderName n) (Notification.senderImageUrl n)
               (Notification.content n) (Notification.timestamp n) true
               (Notification.type n))) ∧
  (∀ (i : nat) n, notifications s !! i = Some n →
     Notification.id n ≠ notificationId →
     notifications s' !! i = Some n) ∧
  (notificationId ∉ notification_ids s → notifications s' = notifications s) ∧
  unreadNotificationsCount s' = Z.max 0 (unreadNotificationsCount s - 1).
Proof.
  simpl. split_and!.
  - by rewrite length_map.
  - intros i n Hi Hn. rewrite list_lookup_fmap, Hi. simpl.
    by rewrite decide_True.
  - intros i n Hi Hn. rewrite list_lookup_fmap, Hi. simpl.
    by rewrite decide_False.
  - unfold notification_ids. induction (notifications s) as [|x l IH]; [done|].
    simpl. rewrite not_elem_of_cons. intros [Hx Hl].
    rewrite decide_False by done. f_equal. by apply IH.
  - done.
Qed.

Lemma markNotificationAsRead_effect_witness :
  notifications (markNotificationAsRead "m1" bo_wrote) !! 0%nat =
    Some (Notification.mk "m1" "u2" "Bo" "bo.png" "hi"
            "2024-01-01T00:00:00.000Z" true message) ∧
  notifications (markNotificationAsRead "m7" bo_wrote) =
    notifications bo_wrote ∧
  unreadNotificationsCount (markNotificationAsRead "m1" bo_wrote) = 0.
Proof.
  destruct (markNotificationAsRead_effect "m1" bo_wrote)
    as (_ & Hhit & _ & _ & Hcount).
  destruct (markNotificationAsRead_effect "m7" bo_wrote)
    as (_ & _ & _ & Hmiss & _).
  split_and!.
  - by apply (Hhit 0%nat m1_notification).
  - apply Hmiss. compute_done.
  - exact Hcount.
Defined.

Lemma read_of_read n :
  Notification.isRead n = true → Notification.read n = n.
Proof. destruct n; simpl; by intros ->. Qed.

(** C10: with a positive unread count, [markNotificationAsRead id] for an id
    that no unread notification carries (every entry with that id is already
    read, or there is none) leaves the list as it is and still takes one off
    the unread count. *)
Theorem markNotificationAsRead_decrements_regardless (notificationId : string)
    (s : ChatStore) :
  0 < unreadNotificationsCount s →
  (∀ n, n ∈ notifications s → Notification.id n = notificationId →
        Notification.isRead n = true) →
  notifications (markNotificationAsRead notificationId s) = notifications s ∧
  unreadNotificationsCount (markNotificationAsRead notificationId s) =
    unreadNotificationsCount s - 1.
Proof.
  intros Hpos Hread. simpl. split; [|lia].
  induction (notifications s) as [|x l IH]; [done|]. simpl. f_equal.
  - case_decide as Hx; [|done]. apply read_of_read, Hread; [left|done].
  - apply IH. intros n Hn. apply Hread. by right.
Qed.

Lemma markNotificationAsRead_decrements_regardless_witness :
  (notifications (markNotificationAsRead "m7" bo_wrote) =
     notifications bo_wrote ∧
   unreadNotificationsCount (markNotificationAsRead "m7" bo_wrote) = 0) ∧
  (notifications (markNotificationAsRead "m1" bo_wrote_twice_read_once) =
     notifications bo_wrote_twice_read_once ∧
   unreadNotificationsCount
     (markNotificationAsRead "m1" bo_wrote_twice_read_once) = 0).
Proof.
  split.
  - apply (markNotificationAsRead_decrements_regardless "m7" bo_wrote).
    + reflexivity.
    + intros n Hn Hid. exfalso. revert Hid.
      apply list_elem_of_singleton in Hn as ->. compute_done.
  - apply (markNotificationAsRead_decrements_regardless "m1"
             bo_wrote_twice_read_once).
    + reflexivity.
    + intros n Hn Hid. revert Hid.
      apply elem_of_cons in Hn as [->|Hn]; [compute_done|].
      apply list_elem_of_singleton in Hn as ->. reflexivity.
Defined.

(** ** dismissNotification *)

Lemma wasUnread_true i s :
  wasUnread i s = true ↔
  ∃ n, first_match i (notifications s) n ∧ Notification.isRead n = false.
Proof.
  unfold wasUnread. split.
  - destruct (find_notification i (notifications s)) as [n|] eqn:Hf; [|done].
    intros Hn. exists n. split; [by apply find_notification_Some|].
    by destruct (Notification.isRead n).
  - intros (n & Hf%find_notification_Some & Hn). by rewrite Hf, Hn.
Qed.

Lemma first_match_unique i l n n' :
  first_match i l n → first_match i l n' → n = n'.
Proof.
  intros H%find_notification_Some H'%find_notification_Some. congruence.
Qed.

(** C4: [dismissNotification id] keeps exactly the entries with another id,
    in their order. With [n] the matching entry, the first of the list with
    that id: if [n] is unread the count becomes [max 0 (count - 1)], if [n]
    is read the count stays; it stays, and so does the list, when no entry
    has that id; and the count changes only when the matching entry was
    unread, and then to [max 0 (count - 1)]. *)
Theorem dismissNotification_effect (notificationId : string) (s : ChatStore) :
  let s' := dismissNotification notificationId s in
  (∀ n, n ∈ notifications s' ↔
        n ∈ notifications s ∧ Notification.id n ≠ notificationId) ∧
  sublist (notifications s') (notifications s) ∧
  (∀ n, first_match notificationId (notifications s) n →
        Notification.isRead n = false →
        unreadNotificationsCount s' =
          Z.max 0 (unreadNotificationsCount s - 1)) ∧
  (∀ n, first_match notificationId (notifications s) n →
        Notification.isRead n = true →
        unreadNotificationsCount s' = unreadNotificationsCount s) ∧
  (notificationId ∉ notification_ids s →
     notifications s' = notifications s ∧
     unreadNotificationsCount s' = unreadNotificationsCount s) ∧
  (unreadNotificationsCount s' ≠ unreadNotificationsCount s →
     unreadNotificationsCount s' = Z.max 0 (unreadNotificationsCount s - 1) ∧
     ∃ n, first_match notificationId (notifications s) n ∧
          Notification.isRead n = false).
Proof.
  simpl. split_and!.
  - intros n. rewrite list_elem_of_filter. tauto.
  - apply sublist_filter.
  - intros n Hn Hunread.
    assert (wasUnread notificationId s = true) as ->; [|done].
    apply wasUnread_true. eauto.
  - intros n Hn Hread.
    destruct (wasUnread notificationId s) eqn:Hw; [|done].
    apply wasUnread_true in Hw as (n' & Hn' & Hunread).
    rewrite (first_match_unique _ _ _ _ Hn Hn') in Hread. congruence.
  - intros Habsent. split.
    + apply filter_id_none. intros x Hx Heq. apply Habsent. rewrite <- Heq.
      unfold notification_ids. by apply (list_elem_of_fmap_2 Notification.id).
    + unfold wasUnread.
      by apply find_notification_None in Habsent as ->.
  - destruct (wasUnread notificationId s) eqn:Hw; [|done].
    intros _. split; [done|]. by apply wasUnread_true.
Qed.

Lemma dismissNotification_effect_witness :
  (unreadNotificationsCount (dismissNotification "m1" bo_wrote) = 0 ∧
   notifications (dismissNotification "m1" bo_wrote) = []) ∧
  unreadNotificationsCount
    (dismissNotification "m1" bo_wrote_twice_read_once) = 1 ∧
  (notifications (dismissNotification "m7" bo_wrote) =
     notifications bo_wrote ∧
   unreadNotificationsCount (dismissNotification "m7" bo_wrote) = 1).
Proof.
  destruct (dismissNotification_effect "m1" bo_wrote)
    as (_ & _ & Hunread & _ & _ & _).
  destruct (dismissNotification_effect "m1" bo_wrote_twice_read_once)
    as (_ & _ & _ & Hread & _ & _).
  destruct (dismissNotification_effect "m7" bo_wrote)
    as (_ & _ & _ & _ & Habsent & _).
  split_and!.
  - apply (Hunread m1_notification); [|reflexivity].
    apply find_notification_Some. reflexivity.
  - reflexivity.
  - apply (Hread (Notification.read m1_notification)); [|reflexivity].
    apply find_notification_Some. reflexivity.
  - apply Habsent. compute_done.
  - apply Habsent. compute_done.
Defined.

(** ** Presence tracker *)

(** C9: [user_connected id] adds [id] to the presence set and nothing else,
    and doing it twice is doing it once; [user_disconnected id] takes [id]
    out and nothing else, doing it twice is doing it once, and it leaves the
    whole state as it is when [id] is not in the set; both leave every other
    field alone. *)
Theorem presence_handlers_effect (userId : string) (s : ChatStore) :
  (∀ x, x ∈ onlineUsers (on_user_connected userId s) ↔
        x ∈ onlineUsers s ∨ x = userId) ∧
  on_user_connected userId (on_user_connected userId s) =
    on_user_connected userId s ∧
  (∀ x, x ∈ onlineUsers (on_user_disconnected userId s) ↔
        x ∈ onlineUsers s ∧ x ≠ userId) ∧
  on_user_disconnected userId (on_user_disconnected userId s) =
    on_user_disconnected userId s ∧
  (userId ∉ onlineUsers s → on_user_disconnected userId s = s) ∧
  same_but_onlineUsers s (on_user_connected userId s) ∧
  same_but_onlineUsers s (on_user_disconnected userId s).
Proof.
  split_and!.
  - intros x. simpl. by rewrite elem_of_union, elem_of_singleton.
  - unfold on_user_connected, set_onlineUsers. simpl. f_equal.
    by rewrite <- (assoc_L (∪)), (idemp_L (∪)).
  - intros x. simpl. by rewrite elem_of_difference, not_elem_of_singleton.
  - unfold on_user_disconnected, set_onlineUsers. simpl. f_equal.
    apply difference_disjoint_L, disjoint_singleton_r.
    rewrite elem_of_difference, elem_of_singleton. tauto.
  - intros Habsent. destruct s. unfold on_user_disconnected, set_onlineUsers.
    simpl in *. f_equal.
    by apply difference_disjoint_L, disjoint_singleton_r.
  - by repeat split.
  - by repeat split.
Qed.

Lemma presence_handlers_effect_witness :
  on_user_disconnected "u2" initialStore = initialStore ∧
  on_user_connected "u2" (on_user_connected "u2" initialStore) =
    on_user_connected "u2" initialStore.
Proof.
  destruct (presence_handlers_effect "u2" initialStore)
    as (_ & Htwice & _ & _ & Habsent & _).
  split; [apply Habsent; compute_done | exact Htwice].
Defined.

(** ** Fetches *)

Lemma error_text_server e m :
  AxiosError.response_data_message e = Some m → m ≠ "" → error_text e = m.
Proof. unfold error_text. intros -> Hm. by rewrite decide_False. Qed.

Lemma error_text_own e :
  AxiosError.response_data_message e = None ∨
  AxiosError.response_data_message e = Some "" →
  error_text e = AxiosError.message e.
Proof. unfold error_text. by intros [-> | ->]. Qed.

(** C7: a failed [fetchUsers] or [searchUsers] leaves [users] as it was, a
    failed [fetchMessages] leaves [messages] as it was, and each puts a
    string in [error]: the message of the server's response when the
    rejection carries one that is not empty, the rejection's own message
    otherwise. A successful one replaces the field with the fetched list.
    The same holds of the half that runs after the [await], whatever ran in
    between, and the half before the [await] touches neither list. *)
Theorem fetch_outcomes (s : ChatStore) (e : AxiosError.t)
    (fetchedUsers : list User.t) (fetchedMessages : list Message.t)
    (query userId : string) :
  (users (fetchUsers (rejected e) s) = users s ∧
   error (fetchUsers (rejected e) s) = Some (error_text e)) ∧
  (users (searchUsers query (rejected e) s) = users s ∧
   error (searchUsers query (rejected e) s) = Some (error_text e)) ∧
  (messages (fetchMessages userId (rejected e) s) = messages s ∧
   error (fetchMessages userId (rejected e) s) = Some (error_text e)) ∧
  users (fetchUsers (resolved fetchedUsers) s) = fetchedUsers ∧
  users (searchUsers query (resolved fetchedUsers) s) = fetchedUsers ∧
  messages (fetchMessages userId (resolved fetchedMessages) s) =
    fetchedMessages ∧
  (users (fetch_begin s) = users s ∧ messages (fetch_begin s) = messages s) ∧
  (users (fetchUsers_settle (rejected e) s) = users s ∧
   users (searchUsers_settle (rejected e) s) = users s ∧
   messages (fetchMessages_settle (rejected e) s) = messages s) ∧
  (error (fetchUsers_settle (rejected e) s) = Some (error_text e) ∧
   error (searchUsers_settle (rejected e) s) = Some (error_text e) ∧
   error (fetchMessages_settle (rejected e) s) = Some (error_text e)) ∧
  (users (fetchUsers_settle (resolved fetchedUsers) s) = fetchedUsers ∧
   users (searchUsers_settle (resolved fetchedUsers) s) = fetchedUsers ∧
   messages (fetchMessages_settle (resolved fetchedMessages) s) =
     fetchedMessages) ∧
  (∀ m, AxiosError.response_data_message e = Some m → m ≠ "" →
     error (fetchUsers (rejected e) s) = Some m ∧
     error (searchUsers query (rejected e) s) = Some m ∧
     error (fetchMessages userId (rejected e) s) = Some m ∧
     error (fetchUsers_settle (rejected e) s) = Some m ∧
     error (searchUsers_settle (rejected e) s) = Some m ∧
     error (fetchMessages_settle (rejected e) s) = Some m) ∧
  (AxiosError.response_data_message e = None ∨
   AxiosError.response_data_message e = Some "" →
     error (fetchUsers (rejected e) s) = Some (AxiosError.message e) ∧
     error (searchUsers query (rejected e) s) = Some (AxiosError.message e) ∧
     error (fetchMessages userId (rejected e) s) =
       Some (AxiosError.message e) ∧
     error (fetchUsers_settle (rejected e) s) = Some (AxiosError.message e) ∧
     error (searchUsers_settle (rejected e) s) =
       Some (AxiosError.message e) ∧
     error (fetchMessages_settle (rejected e) s) =
       Some (AxiosError.message e)).
Proof.
  split_and!; try done.
  - intros m Hm Hne. simpl. by rewrite (error_text_server e m).
  - intros Hown. simpl. by rewrite (error_text_own e).
Qed.

(** A listing that the server refuses with a message of its own, a search
    that times out, and a conversation whose refusal carries an empty
    message. *)
Lemma fetch_outcomes_witness :
  (users (fetchUsers (rejected not_found_error) directory_of_bo) = [bo] ∧
   error (fetchUsers (rejected not_found_error) directory_of_bo) =
     Some "User not found") ∧
  error (searchUsers "cy" (rejected timeout_error) directory_of_bo) =
    Some "timeout of 1000ms exceeded" ∧
  error (fetchMessages "u2" (rejected (AxiosError.mk (Some "") "Network Error"))
           bo_wrote) = Some "Network Error".
Proof.
  destruct (fetch_outcomes directory_of_bo not_found_error [] [] "cy" "u2")
    as ((Hkept & _) & Hrest).
  destruct Hrest as (_ & _ & _ & _ & _ & _ & _ & _ & _ & Hserver & _).
  destruct (fetch_outcomes directory_of_bo timeout_error [] [] "cy" "u2")
    as (_ & _ & _ & _ & _ & _ & _ & _ & _ & _ & _ & Hown).
  destruct (fetch_outcomes bo_wrote (AxiosError.mk (Some "") "Network Error")
              [] [] "cy" "u2")
    as (_ & _ & _ & _ & _ & _ & _ & _ & _ & _ & _ & Hempty).
  split_and!.
  - exact Hkept.
  - apply (Hserver "User not found"); [reflexivity|compute_done].
  - apply Hown. by left.
  - apply Hempty. by right.
Defined.

(** ** Retraction *)

(** C8: [message_unsent {messageId}] keeps exactly the messages with another
    id, in their order, and leaves the state as it is when no message has
    that id; a successful [unsendMessage messageId] does the same to the
    ledger; a failed one leaves the whole store as it is, [error] included,
    and adds one line to the error console. *)
Theorem unsend_effect (messageId : string) (s : ChatStore) (w : World)
    (e : AxiosError.t) :
  (∀ m, m ∈ messages (on_message_unsent messageId s) ↔
        m ∈ messages s ∧ Message._id m ≠ messageId) ∧
  sublist (messages (on_message_unsent messageId s)) (messages s) ∧
  (messageId ∉ message_ids s → on_message_unsent messageId s = s) ∧
  unsendMessage messageId (resolved ()) w =
    with_store (on_message_unsent messageId) w ∧
  (messageId ∉ message_ids (store w) →
     unsendMessage messageId (resolved ()) w = w) ∧
  store (unsendMessage messageId (rejected e) w) = store w ∧
  console (unsendMessage messageId (rejected e) w) =
    console w ++ [console_error "Error unsending message:" e].
Proof.
  assert (∀ s0, messageId ∉ message_ids s0 →
                on_message_unsent messageId s0 = s0) as Hnoop.
  { intros s0 Habsent. destruct s0. unfold on_message_unsent, set_messages.
    simpl in *. f_equal. apply filter_id_none. intros x Hx Heq.
    apply Habsent. rewrite <- Heq.
    by apply (list_elem_of_fmap_2 Message._id). }
  split_and!.
  - intros m. simpl. rewrite list_elem_of_filter. tauto.
  - apply sublist_filter.
  - apply Hnoop.
  - done.
  - intros Habsent. destruct w as [s0 k c]. unfold unsendMessage, with_store.
    simpl in *. f_equal. by apply Hnoop.
  - done.
  - done.
Qed.

Lemma unsend_effect_witness :
  on_message_unsent "m1" initialStore = initialStore ∧
  unsendMessage "m1" (resolved ()) initialWorld = initialWorld.
Proof.
  destruct (unsend_effect "m1" initialStore initialWorld timeout_error)
    as (_ & _ & Hevent & _ & Hcall & _).
  split; [apply Hevent | apply Hcall]; compute_done.
Defined.

(** ** The receive_message handler *)

Lemma find_user_Some i l u :
  find_user i l = Some u → u ∈ l ∧ User.clerkId u = i.
Proof.
  unfold find_user. intros Hf. apply find_some in Hf as [Hin Hid].
  split; [by apply list_elem_of_In|by apply bool_decide_eq_true in Hid].
Qed.

Lemma find_user_None i l :
  find_user i l = None ↔ ∀ u, u ∈ l → User.clerkId u ≠ i.
Proof.
  unfold find_user. induction l as [|x l IH]; simpl.
  - split; [|done]. intros _ u Hu. by apply elem_of_nil in Hu.
  - case_bool_decide as Hx.
    + split; [done|]. intros Hall. destruct (Hall x); [left|done].
    + rewrite IH. split.
      * intros Hall u [->|Hu]%elem_of_cons; [done|by apply Hall].
      * intros Hall u Hu. apply Hall. by right.
Qed.

Section Receive.

Variable Date_getTime : string → EpochTime.

Lemma receive_message_ledger_fields m s :
  let s1 := receive_message_ledger Date_getTime m s in
  users s1 = users s ∧ notifications s1 = notifications s ∧
  unreadNotificationsCount s1 = unreadNotificationsCount s ∧
  messages s1 = messages s ++ [m].
Proof. by repeat split. Qed.

Lemma on_receive_message_messages m s :
  messages (on_receive_message Date_getTime m s) = messages s ++ [m].
Proof.
  unfold on_receive_message, receive_message_notify. by case_match.
Qed.

Lemma on_receive_message_found m s sender :
  find_user (Message.senderId m) (users s) = Some sender →
  notifications (on_receive_message Date_getTime m s) =
    message_notification sender m :: notifications s ∧
  unreadNotificationsCount (on_receive_message Date_getTime m s) =
    unreadNotificationsCount s + 1.
Proof.
  intros Hf. unfold on_receive_message, receive_message_notify.
  simpl. by rewrite Hf.
Qed.

Lemma on_receive_message_not_found m s :
  find_user (Message.senderId m) (users s) = None →
  notifications (on_receive_message Date_getTime m s) = notifications s ∧
  unreadNotificationsCount (on_receive_message Date_getTime m s) =
    unreadNotificationsCount s.
Proof.
  intros Hf. unfold on_receive_message, receive_message_notify.
  simpl. by rewrite Hf.
Qed.

(** C2: the [receive_message] handler appends the message to the ledger
    and puts the time of [createdAt] under the sender's id in
    [lastMessageTime], touching no other key. When some user of the
    directory has the sender's id, it puts one notification in front of
    the list, made of the message's id, sender, content and [createdAt]
    and of that user's name and image, unread and of type [message], and
    adds one to the unread count. When no user of the directory has the
    sender's id, the list and the count stay as they were. *)
Theorem receive_message_effect (m : Message.t) (s : ChatStore) :
  let s' := on_receive_message Date_getTime m s in
  messages s' = messages s ++ [m] ∧
  lastMessageTime s' !! Message.senderId m =
    Some (Date_getTime (Message.createdAt m)) ∧
  (∀ k, k ≠ Message.senderId m →
        lastMessageTime s' !! k = lastMessageTime s !! k) ∧
  ((∃ u, u ∈ users s ∧ User.clerkId u = Message.senderId m) →
     ∃ sender, sender ∈ users s ∧
       User.clerkId sender = Message.senderId m ∧
       notifications s' =
         Notification.mk (Message._id m) (Message.senderId m)
           (User.fullName sender) (User.imageUrl sender)
           (Message.content m) (Message.createdAt m) false message
         :: notifications s ∧
       unreadNotificationsCount s' = unreadNotificationsCount s + 1) ∧
  ((∀ u, u ∈ users s → User.clerkId u ≠ Message.senderId m) →
     notifications s' = notifications s ∧
     unreadNotificationsCount s' = unreadNotificationsCount s).
Proof.
  intros s'. subst s'. split_and!.
  - apply on_receive_message_messages.
  - unfold on_receive_message, receive_message_notify.
    case_match; simpl; apply lookup_insert_eq.
  - intros k Hk. unfold on_receive_message, receive_message_notify.
    case_match; simpl; by apply lookup_insert_ne.
  - intros (u & Hu & Hid).
    destruct (find_user (Message.senderId m) (users s)) as [sender|] eqn:Hf.
    + exists sender. destruct (find_user_Some _ _ _ Hf) as [Hin Hsender].
      destruct (on_receive_message_found m s sender Hf) as [Hlist Hcount].
      by split_and!.
    + destruct (proj1 (find_user_None _ _) Hf u Hu Hid).
  - intros Hnone. by apply on_receive_message_not_found, find_user_None.
Qed.

End Receive.

(** The spec's scenario: the directory holds Bo, and Bo's [m1] arrives; and
    the same message arriving when the directory is empty. *)
Lemma receive_message_effect_witness :
  (messages bo_wrote = [m1] ∧
   lastMessageTime bo_wrote !! "u2" = Some (Millis 1704067200000) ∧
   notifications bo_wrote = [m1_notification] ∧
   unreadNotificationsCount bo_wrote = 1) ∧
  (messages (on_receive_message sample_getTime m1 initialStore) = [m1] ∧
   notifications (on_receive_message sample_getTime m1 initialStore) = [] ∧
   unreadNotificationsCount
     (on_receive_message sample_getTime m1 initialStore) = 0).
Proof.
  destruct (receive_message_effect sample_getTime m1 directory_of_bo)
    as (Hledger & Htime & _ & Hfound & _).
  destruct (receive_message_effect sample_getTime m1 initialStore)
    as (Hledger' & _ & _ & _ & Habsent).
  split.
  - destruct Hfound as (sender & Hin & _ & Hlist & Hcount).
    { exists bo. split; [left|reflexivity]. }
    apply list_elem_of_singleton in Hin as ->.
    split_and!; [exact Hledger|exact Htime|exact Hlist|exact Hcount].
  - destruct Habsent as [Hlist Hcount].
    { intros u Hu. by apply elem_of_nil in Hu. }
    split_and!; [exact Hledger'|exact Hlist|exact Hcount].
Defined.

(** ** Connection lifecycle *)

Lemma initSocket_connected userId w :
  isConnected (store (initSocket userId w)) = true.
Proof. unfold initSocket. by destruct (isConnected (store w)) eqn:Hc. Qed.

Lemma initSocket_listeners userId w :
  isConnected (store w) = false →
  listeners (socket (initSocket userId w)) =
    listeners (socket w) ++
    [ev_users_online; ev_activities; ev_user_connected; ev_user_disconnected;
     ev_receive_message; ev_message_unsent; ev_message_sent].
Proof.
  intros Hc. unfold initSocket. rewrite Hc. simpl.
  by rewrite <- !(assoc_L (++)).
Qed.

Section Connect.

Variable Date_getTime : string → EpochTime.

(** C6: a second [initSocket userId] right after the first changes
    nothing: not the store, not the socket, not the console. From a state
    that is not connected and has no listener yet, the socket then holds
    one listener per inbound event, and an event the transport delivers
    runs its handler once. *)
Theorem initSocket_twice (userId : string) (w : World) :
  initSocket userId (initSocket userId w) = initSocket userId w ∧
  (isConnected (store w) = false → listeners (socket w) = [] →
     (∀ name,
        listener_count name
          (socket (initSocket userId (initSocket userId w))) = 1%nat) ∧
     (∀ ev,
        deliver Date_getTime ev (initSocket userId (initSocket userId w)) =
          with_store (handle Date_getTime ev) (initSocket userId w))).
Proof.
  assert (initSocket userId (initSocket userId w) = initSocket userId w)
    as Hsame.
  { unfold initSocket at 1. by rewrite initSocket_connected. }
  split; [done|]. intros Hc Hnone. rewrite Hsame. split.
  - intros name. unfold listener_count.
    rewrite initSocket_listeners, Hnone by done. by destruct name.
  - intros ev. unfold deliver.
    rewrite initSocket_listeners, Hnone by done. by destruct ev.
Qed.

End Connect.

(** [connect("u1")] twice on the fresh store, then [user_connected("u2")]
    and Bo's message. *)
Lemma initSocket_twice_witness :
  listener_count ev_user_connected
    (socket (initSocket "u1" (initSocket "u1" initialWorld))) = 1%nat ∧
  onlineUsers
    (store (deliver sample_getTime (user_connected "u2")
              (initSocket "u1" (initSocket "u1" initialWorld)))) = {["u2"]} ∧
  messages
    (store (deliver sample_getTime (receive_message m1)
              (initSocket "u1" (initSocket "u1" initialWorld)))) = [m1].
Proof.
  destruct (initSocket_twice sample_getTime "u1" initialWorld)
    as [_ Hfresh].
  destruct Hfresh as [Hcount Hdeliver]; [reflexivity..|].
  split_and!.
  - apply Hcount.
  - rewrite Hdeliver. compute_done.
  - rewrite Hdeliver. reflexivity.
Defined.

(** After [disconnectSocket] the listeners stay on the socket, so a later
    [initSocket] adds a second set: the guard covers only the calls made
    while connected. *)
Example reconnect_registers_again :
  listener_count ev_receive_message
    (socket (initSocket "u1" (disconnectSocket (initSocket "u1" initialWorld))))
  = 2%nat.
Proof. reflexivity. Qed.

(** ** The message ledger *)

Lemma fmap_filter_sublist {A B : Type} (f : A → B) (P : A → Prop)
    `{∀ x, Decision (P x)} (l : list A) :
  map f (filter P l) `sublist_of` map f l.
Proof.
  induction l as [|x l IH]; [done|]. simpl.
  destruct (decide (P x)).
  - rewrite filter_cons_True by done. simpl. by apply sublist_skip.
  - rewrite filter_cons_False by done. by apply sublist_cons.
Qed.

Lemma NoDup_snoc_fresh {A : Type} (l : list A) (x : A) :
  NoDup l → x ∉ l → NoDup (l ++ [x]).
Proof.
  intros Hl Hx. apply NoDup_app. split_and!; [done| |apply NoDup_singleton].
  intros y Hy ->%list_elem_of_singleton. done.
Qed.

Section Ledger.

Variable Date_getTime : string → EpochTime.

Lemma ledger_step_unique (o : LedgerOp) (w : World) :
  NoDup (message_ids (store w)) →
  brings_fresh_ids o w →
  NoDup (message_ids (store (ledger_step Date_getTime o w))).
Proof.
  unfold message_ids. intros Hw Hfresh.
  destruct o as [m|m|i|userId [data|e]|rcv c rid [m|e]|i [[]|e]];
    simpl in *; try done.
  - rewrite on_receive_message_messages, map_app.
    by apply NoDup_snoc_fresh.
  - rewrite map_app. by apply NoDup_snoc_fresh.
  - eapply sublist_NoDup; [exact Hw|apply fmap_filter_sublist].
  - rewrite map_app. by apply NoDup_snoc_fresh.
  - eapply sublist_NoDup; [exact Hw|apply fmap_filter_sublist].
Qed.

(** C3, as the store has it: the ids of the ledger stay pairwise distinct
    along every sequence of [receive_message], [message_sent],
    [message_unsent], [fetchMessages], [sendReplyMessage] and
    [unsendMessage] in which each appended message has an id the ledger
    does not hold yet and each fetched list has no id twice. *)
Theorem ledger_ids_unique (ops : list LedgerOp) (w : World) :
  NoDup (message_ids (store w)) →
  fresh_run Date_getTime ops w →
  NoDup (message_ids (store (ledger_run Date_getTime ops w))).
Proof.
  revert w. induction ops as [|o ops IH]; intros w Hw Hfresh; [done|].
  destruct Hfresh as [Ho Hops]. simpl. apply IH; [|done].
  by apply ledger_step_unique.
Qed.

End Ledger.

(** One message echoed, one received, a conversation fetched, a reply sent
    and then taken back. *)
Lemma ledger_ids_unique_witness :
  NoDup
    (message_ids
       (store
          (ledger_run sample_getTime
             [ledger_message_sent m2; ledger_receive_message m1;
              ledger_fetchMessages "u2" (resolved [m1]);
              ledger_sendReplyMessage "u2" "there" (Some "m1") (resolved m2);
              ledger_unsendMessage "m2" (resolved ())]
             initialWorld))).
Proof.
  apply (ledger_ids_unique sample_getTime); [apply NoDup_nil_2|].
  simpl. split_and!; try exact I; compute_done.
Defined.

(** The same [receive_message] delivered twice puts the message in the
    ledger twice. *)
Lemma ledger_duplicate_delivery :
  message_ids
    (store
       (ledger_run sample_getTime
          [ledger_receive_message m1; ledger_receive_message m1]
          initialWorld)) = ["m1"; "m1"] ∧
  ¬ NoDup
      (message_ids
         (store
            (ledger_run sample_getTime
               [ledger_receive_message m1; ledger_receive_message m1]
               initialWorld))).
Proof.
  split; [reflexivity|]. intros Hnodup.
  apply NoDup_cons in Hnodup as [Hnotin _]. apply Hnotin. left.
Qed.

(** ** The unread count against the notification list *)

Lemma unread_found_cons i x l :
  unread_found i (x :: l) =
  if decide (Notification.id x = i)
  then (if Notification.isRead x then 0 else 1)
  else unread_found i l.
Proof.
  unfold unread_found, find_notification. simpl.
  case_bool_decide; by case_decide.
Qed.

Lemma unread_found_absent i l :
  i ∉ map Notification.id l → unread_found i l = 0.
Proof.
  intros Habsent. unfold unread_found.
  by apply find_notification_None in Habsent as ->.
Qed.

Lemma unread_entries_dismiss i l :
  NoDup (map Notification.id l) →
  unread_entries (filter (λ n, Notification.id n ≠ i) l) =
  unread_entries l - unread_found i l.
Proof.
  induction l as [|x l IH]; [done|].
  simpl. intros [Hx Hl]%NoDup_cons.
  rewrite unread_found_cons, (unread_entries_cons x l).
  case_decide as Hid.
  - rewrite filter_cons_False by (intros Hne; by apply Hne).
    rewrite filter_id_none; [lia|].
    intros y Hy Heq. apply Hx. rewrite Hid, <- Heq.
    by apply (list_elem_of_fmap_2 Notification.id).
  - rewrite filter_cons_True by done.
    rewrite unread_entries_cons, IH by done. lia.
Qed.

Lemma unread_entries_mark i l :
  NoDup (map Notification.id l) →
  unread_entries
    (map (λ n, if decide (Notification.id n = i)
               then Notification.read n else n) l) =
  unread_entries l - unread_found i l.
Proof.
  induction l as [|x l IH]; [done|].
  simpl. intros [Hx Hl]%NoDup_cons.
  rewrite unread_found_cons, !unread_entries_cons.
  case_decide as Hid.
  - simpl. assert (map (λ n, if decide (Notification.id n = i)
                             then Notification.read n else n) l = l) as ->.
    { clear IH Hl. induction l as [|y l IH]; [done|]. simpl in *.
      apply not_elem_of_cons in Hx as [Hy Hx].
      rewrite decide_False by congruence. f_equal. by apply IH. }
    lia.
  - rewrite IH by done. lia.
Qed.

Lemma mark_keeps_ids i l :
  map Notification.id
    (map (λ n, if decide (Notification.id n = i)
               then Notification.read n else n) l) =
  map Notification.id l.
Proof.
  induction l as [|x l IH]; [done|]. simpl. rewrite IH. f_equal.
  by case_decide.
Qed.

Lemma unread_found_targeted i l n :
  NoDup (map Notification.id l) →
  n ∈ l → Notification.id n = i → Notification.isRead n = false →
  unread_found i l = 1.
Proof.
  induction l as [|x l IH]; intros Hnodup Hn Hid Hunread.
  - by apply elem_of_nil in Hn.
  - simpl in Hnodup. apply NoDup_cons in Hnodup as [Hx Hl].
    rewrite unread_found_cons.
    apply elem_of_cons in Hn as [<-|Hn].
    + by rewrite decide_True, Hunread.
    + rewrite decide_False; [by apply IH|].
      intros Heq. apply Hx. rewrite Heq, <- Hid.
      by apply (list_elem_of_fmap_2 Notification.id).
Qed.

Lemma wasUnread_unread_found i s :
  wasUnread i s = true ↔ unread_found i (notifications s) = 1.
Proof.
  unfold unread_found, wasUnread.
  destruct (find_notification i (notifications s)) as [n|]; [|done].
  by destruct (Notification.isRead n).
Qed.

Section Invariant.

Variable Date_getTime : string → EpochTime.

Lemma notification_step_nonneg (o : NotificationOp) (s : ChatStore) :
  0 ≤ unreadNotificationsCount s →
  0 ≤ unreadNotificationsCount (notification_step Date_getTime o s).
Proof.
  intros Hs. destruct o as [i|i|m]; simpl.
  - lia.
  - destruct (wasUnread i s); lia.
  - unfold on_receive_message, receive_message_notify.
    case_match; simpl; lia.
Qed.

Lemma notification_step_agrees (o : NotificationOp) (s : ChatStore) :
  count_agrees s → NoDup (notification_ids s) →
  well_targeted o s →
  count_agrees (notification_step Date_getTime o s) ∧
  NoDup (notification_ids (notification_step Date_getTime o s)).
Proof.
  unfold count_agrees, notification_ids. intros Hs Hids Ho.
  destruct o as [i|i|m]; simpl in *.
  - destruct Ho as (n & Hn & Hid & Hunread).
    rewrite mark_keeps_ids. split; [|done].
    pose proof (unread_found_targeted i _ n Hids Hn Hid Hunread) as Hone.
    pose proof (unread_entries_mark i _ Hids) as Hafter.
    pose proof (unread_entries_nonneg
      (map (λ n, if decide (Notification.id n = i)
                 then Notification.read n else n) (notifications s))).
    lia.
  - split; [|eapply sublist_NoDup; [exact Hids|apply fmap_filter_sublist]].
    pose proof (unread_entries_dismiss i _ Hids) as Hafter.
    pose proof (unread_entries_nonneg
      (filter (λ n, Notification.id n ≠ i) (notifications s))).
    destruct (wasUnread i s) eqn:Hw.
    + apply wasUnread_unread_found in Hw. lia.
    + assert (unread_found i (notifications s) ≠ 1) as Hne.
      { intros Hone%wasUnread_unread_found. congruence. }
      assert (unread_found i (notifications s) = 0) as Hzero; [|lia].
      revert Hne. unfold unread_found.
      destruct (find_notification i (notifications s)) as [n|]; [|done].
      by destruct (Notification.isRead n).
  - destruct (find_user (Message.senderId m) (users s)) as [sender|] eqn:Hf.
    + destruct (on_receive_message_found Date_getTime m s sender Hf)
        as [-> ->].
      rewrite unread_entries_cons. simpl. split; [lia|].
      apply NoDup_cons. done.
    + by destruct (on_receive_message_not_found Date_getTime m s Hf)
        as [-> ->].
Qed.

(** C1, as the store has it: along every sequence of
    [markNotificationAsRead], [dismissNotification] and [receive_message]
    the unread count stays non-negative. It equals the number of unread
    notifications, and the ids of the list stay pairwise distinct, along
    every sequence in which each received message brings an id no
    notification has yet and each notification marked as read is in the
    list and unread. The first [set] of [receive_message] touches neither
    the list nor the count: they change together, in its second [set]. *)
Theorem unread_count_along_runs (ops : list NotificationOp)
    (s : ChatStore) :
  0 ≤ unreadNotificationsCount s →
  0 ≤ unreadNotificationsCount (notification_run Date_getTime ops s) ∧
  (count_agrees s → NoDup (notification_ids s) →
   well_targeted_run Date_getTime ops s →
     count_agrees (notification_run Date_getTime ops s) ∧
     NoDup (notification_ids (notification_run Date_getTime ops s))) ∧
  (∀ m,
     notifications
       (receive_message_ledger Date_getTime m
          (notification_run Date_getTime ops s)) =
       notifications (notification_run Date_getTime ops s) ∧
     unreadNotificationsCount
       (receive_message_ledger Date_getTime m
          (notification_run Date_getTime ops s)) =
       unreadNotificationsCount (notification_run Date_getTime ops s)).
Proof.
  intros Hs. split_and!; [| |done].
  - revert s Hs. induction ops as [|o ops IH]; intros s Hs; [done|].
    simpl. by apply IH, notification_step_nonneg.
  - clear Hs. revert s.
    induction ops as [|o ops IH]; intros s Hagree Hids Hrun; [done|].
    destruct Hrun as [Ho Hops]. simpl.
    destruct (notification_step_agrees o s Hagree Hids Ho).
    by apply IH.
Qed.

End Invariant.

(** Two messages of Bo arrive, the first is marked as read, and both are
    dismissed, along with an id that was never there. *)
Lemma unread_count_along_runs_witness :
  0 ≤ unreadNotificationsCount
        (notification_run sample_getTime
           [do_receive_message m1; do_receive_message m2;
            do_markNotificationAsRead "m1"; do_dismissNotification "m1";
            do_dismissNotification "m7"; do_dismissNotification "m2"]
           directory_of_bo) ∧
  count_agrees
    (notification_run sample_getTime
       [do_receive_message m1; do_receive_message m2;
        do_markNotificationAsRead "m1"; do_dismissNotification "m1";
        do_dismissNotification "m7"; do_dismissNotification "m2"]
       directory_of_bo).
Proof.
  destruct (unread_count_along_runs sample_getTime
    [do_receive_message m1; do_receive_message m2;
     do_markNotificationAsRead "m1"; do_dismissNotification "m1";
     do_dismissNotification "m7"; do_dismissNotification "m2"]
    directory_of_bo) as (Hnonneg & Hagree & _); [done|].
  split; [exact Hnonneg|]. apply Hagree.
  - reflexivity.
  - apply NoDup_nil_2.
  - simpl. split_and!; try exact I; try compute_done.
    exists m1_notification. split_and!; [|reflexivity..].
    right. left.
Defined.

(** The same message delivered twice leaves two notifications with one id;
    dismissing that id removes both and takes one off the count. *)
Lemma unread_count_drifts :
  notifications
    (notification_run sample_getTime
       [do_receive_message m1; do_receive_message m1;
        do_dismissNotification "m1"]
       directory_of_bo) = [] ∧
  unreadNotificationsCount
    (notification_run sample_getTime
       [do_receive_message m1; do_receive_message m1;
        do_dismissNotification "m1"]
       directory_of_bo) = 1.
Proof. split; reflexivity. Qed.

(** Marking an id that no notification carries takes one off the count all
    the same: one unread notification is left, and the count says none. *)
Example mark_of_absent_id_drifts :
  notifications
    (notification_run sample_getTime
       [do_receive_message m1; do_markNotificationAsRead "m7"]
       directory_of_bo) = [m1_notification] ∧
  unreadNotificationsCount
    (notification_run sample_getTime
       [do_receive_message m1; do_markNotificationAsRead "m7"]
       directory_of_bo) = 0.
Proof. split; reflexivity. Qed.

(** ** What inbound events leave alone *)

Lemma foldl_ignoring {A B : Type} (f : A → A) (l : list B) (a : A) :
  foldl (λ acc _, f acc) a l = Nat.iter (length l) f a.
Proof.
  revert a. induction l as [|x l IH]; intros a; [done|].
  simpl foldl. rewrite IH. simpl length. by rewrite Nat.iter_succ_r.
Qed.

Lemma iter_keeps {A B : Type} (f : A → A) (g : A → B) (n : nat) (a : A) :
  (∀ x, g (f x) = g x) → g (Nat.iter n f a) = g a.
Proof.
  intros Hf. induction n as [|n IH]; [done|]. simpl. by rewrite Hf.
Qed.

Section Inbound.

Variable Date_getTime : string → EpochTime.

Lemma deliver_iter (ev : InboundEvent) (w : World) :
  deliver Date_getTime ev w =
  with_store
    (λ s, Nat.iter (listener_count (event_name ev) (socket w))
            (handle Date_getTime ev) s)
    w.
Proof.
  unfold deliver, listener_count, with_store. by rewrite foldl_ignoring.
Qed.

Lemma handle_isConnected (ev : InboundEvent) (s : ChatStore) :
  isConnected (handle Date_getTime ev s) = isConnected s.
Proof.
  destruct ev; simpl; try done.
  unfold on_receive_message, receive_message_notify. by case_match.
Qed.

(** X1: no inbound event, however many listeners it has, touches the user
    directory, the loading flag, the error, the selected user, the reply
    context or the connection flag, nor the socket or the console: those
    change only through the store's own actions. *)
Theorem deliver_keeps_fetch_state (ev : InboundEvent) (w : World) :
  users (store (deliver Date_getTime ev w)) = users (store w) ∧
  isLoading (store (deliver Date_getTime ev w)) = isLoading (store w) ∧
  error (store (deliver Date_getTime ev w)) = error (store w) ∧
  selectedUser (store (deliver Date_getTime ev w)) = selectedUser (store w) ∧
  replyTo (store (deliver Date_getTime ev w)) = replyTo (store w) ∧
  isConnected (store (deliver Date_getTime ev w)) = isConnected (store w) ∧
  socket (deliver Date_getTime ev w) = socket w ∧
  console (deliver Date_getTime ev w) = console w.
Proof.
  rewrite deliver_iter. simpl.
  assert (∀ s, users (handle Date_getTime ev s) = users s ∧
               isLoading (handle Date_getTime ev s) = isLoading s ∧
               error (handle Date_getTime ev s) = error s ∧
               selectedUser (handle Date_getTime ev s) = selectedUser s ∧
               replyTo (handle Date_getTime ev s) = replyTo s) as Hone.
  { intros s. destruct ev; simpl; try done.
    unfold on_receive_message, receive_message_notify. by case_match. }
  split_and!; try done; apply iter_keeps; intros s; try apply Hone.
  apply handle_isConnected.
Qed.

End Inbound.

(** ** Connect, disconnect, connect *)

Lemma listener_count_app name k more :
  listener_count name
    (mkSocket (auth k) (connected k) (emitted k) (listeners k ++ more)) =
  (listener_count name k + length (filter (λ x, x = name) more))%nat.
Proof. unfold listener_count. simpl. by rewrite filter_app, length_app. Qed.

Lemma initSocket_listener_count userId name w :
  isConnected (store w) = false →
  listener_count name (socket (initSocket userId w)) =
  S (listener_count name (socket w)).
Proof.
  intros Hc. unfold listener_count. rewrite initSocket_listeners by done.
  rewrite filter_app, length_app. destruct name; simpl; lia.
Qed.

Lemma initSocket_announcements userId w :
  isConnected (store w) = false →
  announcements (socket (initSocket userId w)) =
  S (announcements (socket w)).
Proof.
  intros Hc. unfold initSocket, announcements. rewrite Hc. simpl.
  rewrite filter_app, length_app. simpl. lia.
Qed.

Section Lifecycle.

Variable Date_getTime : string → EpochTime.

(** X2: the guard of [initSocket] looks at the store's flag only, and
    [disconnectSocket] takes no listener off the socket. So connecting,
    disconnecting and connecting again, from a state without listeners,
    leaves two listeners per event: every delivered event runs its handler
    twice, and one received message is in the ledger twice. *)
Theorem reconnect_doubles_handlers (userId userId' : string) (w : World)
    (ev : InboundEvent) (m : Message.t) :
  isConnected (store w) = false → listeners (socket w) = [] →
  let w' := initSocket userId' (disconnectSocket (initSocket userId w)) in
  listener_count (event_name ev) (socket w') = 2%nat ∧
  deliver Date_getTime ev w' =
    with_store (λ s, handle Date_getTime ev (handle Date_getTime ev s)) w' ∧
  messages (store (deliver Date_getTime (receive_message m) w')) =
    messages (store w) ++ [m; m].
Proof.
  intros Hc Hnone w'.
  assert (isConnected (store (disconnectSocket (initSocket userId w)))
          = false) as Hoff.
  { unfold disconnectSocket. by rewrite initSocket_connected. }
  assert (∀ name, listener_count name (socket w') = 2%nat) as Htwo.
  { intros name. subst w'. rewrite initSocket_listener_count by done.
    unfold disconnectSocket. rewrite initSocket_connected. simpl.
    change (S (listener_count name (socket (initSocket userId w))) = 2%nat).
    rewrite initSocket_listener_count by done.
    unfold listener_count. by rewrite Hnone. }
  split_and!.
  - apply Htwo.
  - by rewrite deliver_iter, Htwo.
  - rewrite deliver_iter, Htwo. simpl.
    rewrite !on_receive_message_messages, <- (assoc_L (++)).
    subst w'. unfold initSocket at 1. rewrite Hoff. simpl.
    unfold disconnectSocket. rewrite initSocket_connected. simpl.
    unfold initSocket. by rewrite Hc.
Qed.

Lemma lifecycle_step_listeners (o : LifecycleOp) (w : World) :
  listeners_per_announcement w →
  listeners_per_announcement (lifecycle_step Date_getTime o w).
Proof.
  unfold listeners_per_announcement. intros Hcount.
  destruct o as [userId| |r s c|ev]; simpl; intros name.
  - destruct (isConnected (store w)) eqn:Hc.
    + unfold initSocket. rewrite Hc. apply Hcount.
    + by rewrite initSocket_listener_count, initSocket_announcements, Hcount.
  - unfold disconnectSocket.
    destruct (isConnected (store w)); apply Hcount.
  - unfold announcements, listener_count in *. simpl.
    rewrite filter_app, length_app. simpl. rewrite Hcount. lia.
  - apply Hcount.
Qed.

(** X3: along every sequence of [initSocket], [disconnectSocket],
    [sendMessage] and delivered events, every inbound event has as many
    listeners as the socket has announced a user, that is one per
    [initSocket] that was not ignored, whatever disconnects came in
    between. A delivered event therefore runs its handler that many
    times. *)
Theorem listeners_follow_announcements (ops : list LifecycleOp) (w : World)
    (ev : InboundEvent) :
  listeners_per_announcement w →
  listeners_per_announcement (lifecycle_run Date_getTime ops w) ∧
  deliver Date_getTime ev (lifecycle_run Date_getTime ops w) =
    with_store
      (λ s, Nat.iter
              (announcements (socket (lifecycle_run Date_getTime ops w)))
              (handle Date_getTime ev) s)
      (lifecycle_run Date_getTime ops w).
Proof.
  intros Hw.
  assert (listeners_per_announcement (lifecycle_run Date_getTime ops w))
    as Hrun.
  { revert w Hw. induction ops as [|o ops IH]; intros w Hw; [done|].
    simpl. by apply IH, lifecycle_step_listeners. }
  split; [done|]. rewrite deliver_iter. by rewrite Hrun.
Qed.

End Lifecycle.

(** Connect, disconnect, connect and send on the fresh store; then Bo's
    message arrives. *)
Lemma reconnect_doubles_handlers_witness :
  listener_count ev_receive_message
    (socket (initSocket "u1" (disconnectSocket (initSocket "u1" initialWorld))))
  = 2%nat ∧
  messages
    (store
       (deliver sample_getTime (receive_message m1)
          (initSocket "u1" (disconnectSocket (initSocket "u1" initialWorld)))))
  = [m1; m1].
Proof.
  destruct (reconnect_doubles_handlers sample_getTime "u1" "u1" initialWorld
              (receive_message m1) m1) as (Hcount & _ & Hledger);
    [reflexivity..|].
  split; [exact Hcount|exact Hledger].
Defined.

Lemma listeners_follow_announcements_witness :
  listener_count ev_receive_message
    (socket
       (lifecycle_run sample_getTime
          [life_initSocket "u1"; life_initSocket "u1"; life_disconnectSocket;
           life_sendMessage "u2" "u1" "hi"; life_initSocket "u1";
           life_deliver (receive_message m1)]
          initialWorld)) = 2%nat ∧
  messages
    (store
       (deliver sample_getTime (receive_message m2)
          (lifecycle_run sample_getTime
             [life_initSocket "u1"; life_initSocket "u1";
              life_disconnectSocket; life_sendMessage "u2" "u1" "hi";
              life_initSocket "u1"; life_deliver (receive_message m1)]
             initialWorld))) = [m1; m1; m2; m2].
Proof.
  destruct (listeners_follow_announcements sample_getTime
              [life_initSocket "u1"; life_initSocket "u1";
               life_disconnectSocket; life_sendMessage "u2" "u1" "hi";
               life_initSocket "u1"; life_deliver (receive_message m1)]
              initialWorld (receive_message m2)) as [Hcount Hdeliver].
  { intros name. reflexivity. }
  split; [apply Hcount|]. rewrite Hdeliver. reflexivity.
Defined.

(** ** Presence snapshots and deltas *)

Lemma set_onlineUsers_twice (X Y : gset string) (s : ChatStore) :
  set_onlineUsers X (set_onlineUsers Y s) = set_onlineUsers X s.
Proof. done. Qed.

(** X4: a [users_online] snapshot makes the presence set exactly the ids of
    the list, whatever it was: the deltas and snapshots that came before it
    leave no trace, and an empty list empties the set. *)
Theorem users_online_snapshot_wins (ids ids' : list string)
    (userId : string) (s : ChatStore) :
  (∀ x, x ∈ onlineUsers (on_users_online ids s) ↔ x ∈ ids) ∧
  on_users_online ids (on_user_connected userId s) = on_users_online ids s ∧
  on_users_online ids (on_user_disconnected userId s) =
    on_users_online ids s ∧
  on_users_online ids (on_users_online ids' s) = on_users_online ids s ∧
  onlineUsers (on_users_online [] s) = ∅.
Proof.
  split_and!; try done. intros x. simpl. apply elem_of_list_to_set.
Qed.

(** X5: a connect followed by a disconnect of the same id leaves the id
    offline, the other way round leaves it online; connects commute with
    each other, disconnects too, and a connect commutes with a disconnect
    of another id. *)
Theorem presence_deltas_compose (u v : string) (s : ChatStore) :
  on_user_disconnected u (on_user_connected u s) = on_user_disconnected u s ∧
  on_user_connected u (on_user_disconnected u s) = on_user_connected u s ∧
  on_user_connected u (on_user_connected v s) =
    on_user_connected v (on_user_connected u s) ∧
  on_user_disconnected u (on_user_disconnected v s) =
    on_user_disconnected v (on_user_disconnected u s) ∧
  (u ≠ v →
   on_user_connected u (on_user_disconnected v s) =
     on_user_disconnected v (on_user_connected u s)).
Proof.
  unfold on_user_connected, on_user_disconnected.
  rewrite !set_onlineUsers_twice. simpl.
  split_and!; [..|intros Huv]; f_equal; apply set_eq; intros x;
    rewrite ?elem_of_union, ?elem_of_difference, ?elem_of_union,
      ?elem_of_difference, ?elem_of_singleton;
    destruct (decide (x = u)), (decide (x = v));
    first [tauto | exfalso; congruence].
Qed.

Lemma presence_deltas_compose_witness :
  on_user_connected "u2" (on_user_disconnected "u3" initialStore) =
  on_user_disconnected "u3" (on_user_connected "u2" initialStore).
Proof.
  destruct (presence_deltas_compose "u2" "u3" initialStore)
    as (_ & _ & _ & _ & Hswap).
  apply Hswap. compute_done.
Defined.

(** ** The activity map *)

Lemma new_Map_snoc pairs p :
  new_Map (pairs ++ [p]) = <[p.1 := p.2]> (new_Map pairs).
Proof. unfold new_Map. by rewrite foldl_app. Qed.

(** X6: the activity map an [activities] event leaves holds, for each user,
    the status of the last pair of the payload with that user, and nothing
    for a user without a pair; what the map held before is gone. *)
Theorem activities_last_pair_wins (pairs pairs' : list (string * string))
    (k : string) (s : ChatStore) :
  userActivities (on_activities pairs s) !! k = last_value k pairs ∧
  on_activities pairs (on_activities pairs' s) = on_activities pairs s.
Proof.
  split; [|done]. simpl. unfold last_value.
  induction pairs as [|p pairs IH] using rev_ind; [done|].
  rewrite new_Map_snoc, filter_app, filter_cons, filter_nil.
  destruct (decide (p.1 = k)) as [<-|Hne].
  - by rewrite lookup_insert_eq, last_snoc.
  - by rewrite lookup_insert_ne, app_nil_r.
Qed.

(** ** Deliveries and retractions in sequence *)

Lemma filter_other_id_snoc (i : string) (l : list Message.t) (m : Message.t) :
  Message._id m = i → i ∉ map Message._id l →
  filter (λ msg, Message._id msg ≠ i) (l ++ [m]) = l.
Proof.
  intros Hm Habsent. rewrite filter_app, filter_cons, filter_nil.
  rewrite decide_False by (intros Hne; by apply Hne).
  rewrite app_nil_r. apply filter_id_none. intros x Hx Heq.
  apply Habsent. rewrite <- Heq. by apply (list_elem_of_fmap_2 Message._id).
Qed.

Section Sequences.

Variable Date_getTime : string → EpochTime.

Lemma on_receive_message_users m s :
  users (on_receive_message Date_getTime m s) = users s.
Proof. unfold on_receive_message, receive_message_notify. by case_match. Qed.

Lemma on_receive_message_time m s :
  lastMessageTime (on_receive_message Date_getTime m s) =
  <[Message.senderId m := Date_getTime (Message.createdAt m)]>
    (lastMessageTime s).
Proof. unfold on_receive_message, receive_message_notify. by case_match. Qed.

(** X7: a message that is received and then retracted, its id being new to
    the ledger, leaves the ledger as it was before; its notification, the
    unread count and the sender's entry in [lastMessageTime] stay as the
    delivery left them, so a known sender's retracted message still shows as
    one unread notification. *)
Theorem unsent_after_receive (m : Message.t) (s : ChatStore) :
  Message._id m ∉ message_ids s →
  let s1 := on_receive_message Date_getTime m s in
  let s2 := on_message_unsent (Message._id m) s1 in
  messages s2 = messages s ∧
  notifications s2 = notifications s1 ∧
  unreadNotificationsCount s2 = unreadNotificationsCount s1 ∧
  lastMessageTime s2 !! Message.senderId m =
    Some (Date_getTime (Message.createdAt m)) ∧
  (∀ sender, find_user (Message.senderId m) (users s) = Some sender →
     notifications s2 = message_notification sender m :: notifications s ∧
     unreadNotificationsCount s2 = unreadNotificationsCount s + 1).
Proof.
  intros Hfresh s1 s2. subst s1 s2. simpl. split_and!; try done.
  - rewrite on_receive_message_messages. by apply filter_other_id_snoc.
  - rewrite on_receive_message_time. apply lookup_insert_eq.
  - intros sender Hf. by apply on_receive_message_found.
Qed.

(** X8: the echo [message_sent] appends the message to the ledger and puts
    the time of its [createdAt] under the receiver's id in
    [lastMessageTime], touching no other key; unlike [receive_message] it
    never makes a notification or changes the unread count, whoever the
    directory holds. Retracting the echoed message, its id being new,
    restores the ledger. *)
Theorem message_sent_effect (m : Message.t) (s : ChatStore) :
  let s' := on_message_sent Date_getTime m s in
  messages s' = messages s ++ [m] ∧
  lastMessageTime s' !! Message.receiverId m =
    Some (Date_getTime (Message.createdAt m)) ∧
  (∀ k, k ≠ Message.receiverId m →
        lastMessageTime s' !! k = lastMessageTime s !! k) ∧
  notifications s' = notifications s ∧
  unreadNotificationsCount s' = unreadNotificationsCount s ∧
  (Message._id m ∉ message_ids s →
   messages (on_message_unsent (Message._id m) s') = messages s).
Proof.
  simpl. split_and!; try done.
  - apply lookup_insert_eq.
  - intros k Hk. by apply lookup_insert_ne.
  - intros Hfresh. by apply filter_other_id_snoc.
Qed.

Lemma receive_all_snoc msgs m s :
  receive_all Date_getTime (msgs ++ [m]) s =
  on_receive_message Date_getTime m (receive_all Date_getTime msgs s).
Proof. unfold receive_all. by rewrite foldl_app. Qed.

Lemma notifications_of_snoc directory msgs m :
  notifications_of directory (msgs ++ [m]) =
  notifications_of directory msgs ++
  match find_user (Message.senderId m) directory with
  | Some sender => [message_notification sender m]
  | None => []
  end.
Proof.
  unfold notifications_of. rewrite omap_app. f_equal. simpl.
  by destruct (find_user (Message.senderId m) directory).
Qed.

(** X9: a batch of [receive_message] events leaves the directory as it was,
    the ledger extended by the messages in the order of delivery, one
    notification per message of a sender the directory knows, the latest
    first, in front of the old ones, the unread count raised by their
    number, and under each sender the time of the last message delivered
    from that sender, be it older than the one before or not. *)
Theorem receive_all_effect (msgs : list Message.t) (s : ChatStore) :
  let s' := receive_all Date_getTime msgs s in
  users s' = users s ∧
  messages s' = messages s ++ msgs ∧
  notifications s' =
    reverse (notifications_of (users s) msgs) ++ notifications s ∧
  unreadNotificationsCount s' =
    unreadNotificationsCount s +
    Z.of_nat (length (notifications_of (users s) msgs)) ∧
  (∀ k, lastMessageTime s' !! k =
        match last (filter (λ m, Message.senderId m = k) msgs) with
        | Some m => Some (Date_getTime (Message.createdAt m))
        | None => lastMessageTime s !! k
        end).
Proof.
  simpl. induction msgs as [|m msgs IH] using rev_ind.
  { simpl. rewrite app_nil_r. split_and!; try done. lia. }
  destruct IH as (Husers & Hledger & Hlist & Hcount & Htime).
  rewrite receive_all_snoc, notifications_of_snoc.
  split_and!.
  - by rewrite on_receive_message_users.
  - by rewrite on_receive_message_messages, Hledger, <- (assoc_L (++)).
  - destruct (find_user (Message.senderId m) (users s)) as [sender|] eqn:Hf.
    + rewrite <- Husers in Hf.
      destruct (on_receive_message_found Date_getTime m _ sender Hf)
        as [-> _].
      by rewrite reverse_snoc, Hlist.
    + rewrite <- Husers in Hf.
      destruct (on_receive_message_not_found Date_getTime m _ Hf)
        as [-> _].
      by rewrite app_nil_r.
  - destruct (find_user (Message.senderId m) (users s)) as [sender|] eqn:Hf.
    + rewrite <- Husers in Hf.
      destruct (on_receive_message_found Date_getTime m _ sender Hf)
        as [_ ->].
      rewrite length_app, Hcount. simpl. lia.
    + rewrite <- Husers in Hf.
      destruct (on_receive_message_not_found Date_getTime m _ Hf)
        as [_ ->].
      by rewrite app_nil_r.
  - intros k. rewrite on_receive_message_time, filter_app, filter_cons,
      filter_nil.
    destruct (decide (Message.senderId m = k)) as [<-|Hne].
    + by rewrite lookup_insert_eq, last_snoc.
    + by rewrite lookup_insert_ne, app_nil_r.
Qed.

(** X10: the directory a search leaves decides which senders are notified
    of: after a successful [searchUsers] whose result holds no user with
    the sender's id, a received message goes to the ledger without a
    notification, whatever the directory held before; after a failed search
    the directory and hence the notification are as without the search. *)
Theorem search_narrows_notifications (query : string)
    (found : list User.t) (e : AxiosError.t) (m : Message.t)
    (s : ChatStore) :
  ((∀ u, u ∈ found → User.clerkId u ≠ Message.senderId m) →
   let s' :=
     on_receive_message Date_getTime m (searchUsers query (resolved found) s)
   in
   messages s' = messages s ++ [m] ∧
   notifications s' = notifications s ∧
   unreadNotificationsCount s' = unreadNotificationsCount s) ∧
  notifications
    (on_receive_message Date_getTime m (searchUsers query (rejected e) s)) =
    notifications (on_receive_message Date_getTime m s) ∧
  unreadNotificationsCount
    (on_receive_message Date_getTime m (searchUsers query (rejected e) s)) =
    unreadNotificationsCount (on_receive_message Date_getTime m s).
Proof.
  split_and!.
  - intros Hnone s'. subst s'.
    destruct (on_receive_message_not_found Date_getTime m
                (searchUsers query (resolved found) s)) as [-> ->];
      [by apply find_user_None|].
    by rewrite on_receive_message_messages.
  - unfold on_receive_message, receive_message_notify. simpl.
    by destruct (find_user (Message.senderId m) (users s)).
  - unfold on_receive_message, receive_message_notify. simpl.
    by destruct (find_user (Message.senderId m) (users s)).
Qed.

End Sequences.

(** Bo's message is received and retracted. *)
Lemma unsent_after_receive_witness :
  messages (on_message_unsent "m1" bo_wrote) = [] ∧
  notifications (on_message_unsent "m1" bo_wrote) = [m1_notification] ∧
  unreadNotificationsCount (on_message_unsent "m1" bo_wrote) = 1.
Proof.
  destruct (unsent_after_receive sample_getTime m1 directory_of_bo)
    as (Hledger & _ & _ & _ & Hknown); [compute_done|].
  destruct (Hknown bo) as [Hlist Hcount]; [reflexivity|].
  split_and!; [exact Hledger|exact Hlist|exact Hcount].
Defined.

Lemma message_sent_effect_witness :
  messages
    (on_message_unsent "m1" (on_message_sent sample_getTime m1 initialStore))
  = [].
Proof.
  destruct (message_sent_effect sample_getTime m1 initialStore)
    as (_ & _ & _ & _ & _ & Hback).
  apply Hback. compute_done.
Defined.

(** The directory held Bo; a search that finds only Cy drops the
    notification of Bo's message. *)
Lemma search_narrows_notifications_witness :
  notifications
    (on_receive_message sample_getTime m1
       (searchUsers "cy" (resolved [cy]) directory_of_bo)) = [] ∧
  unreadNotificationsCount
    (on_receive_message sample_getTime m1
       (searchUsers "cy" (resolved [cy]) directory_of_bo)) = 0.
Proof.
  destruct (search_narrows_notifications sample_getTime "cy" [cy]
              timeout_error m1 directory_of_bo) as (Hnarrow & _).
  destruct Hnarrow as (_ & Hlist & Hcount).
  { intros u Hu. apply list_elem_of_singleton in Hu as ->. compute_done. }
  split; [exact Hlist|exact Hcount].
Defined.

(** ** Notification actions in sequence *)

Lemma find_notification_filter_other i j l :
  i ≠ j →
  find_notification i (filter (λ n, Notification.id n ≠ j) l) =
  find_notification i l.
Proof.
  intros Hij. unfold find_notification.
  induction l as [|x l IH]; [done|]. rewrite filter_cons.
  destruct (decide (Notification.id x ≠ j)) as [Hx|Hx]; simpl.
  - by rewrite IH.
  - rewrite IH. case_bool_decide as Hxi; [|done].
    destruct Hx. congruence.
Qed.

Lemma find_notification_filter_same i l :
  find_notification i (filter (λ n, Notification.id n ≠ i) l) = None.
Proof.
  apply find_notification_None. intros Hin.
  apply list_elem_of_fmap in Hin as (n & Hid & Hn).
  apply list_elem_of_filter in Hn as [Hne _]. by apply Hne.
Qed.

Lemma filter_other_id_comm i j (l : list Notification.t) :
  filter (λ n, Notification.id n ≠ i)
    (filter (λ n, Notification.id n ≠ j) l) =
  filter (λ n, Notification.id n ≠ j)
    (filter (λ n, Notification.id n ≠ i) l).
Proof.
  induction l as [|x l IH]; [done|]. rewrite !(filter_cons _ x).
  destruct (decide (Notification.id x ≠ i)) as [Hi|Hi],
           (decide (Notification.id x ≠ j)) as [Hj|Hj];
    rewrite ?(filter_cons _ x), ?decide_True, ?decide_False by done;
    by rewrite IH.
Qed.

Lemma find_notification_mark i l :
  find_notification i
    (map (λ n, if decide (Notification.id n = i)
               then Notification.read n else n) l) =
  Notification.read <$> find_notification i l.
Proof.
  unfold find_notification. induction l as [|x l IH]; [done|]. simpl.
  case_decide as Hx.
  - simpl. by rewrite !bool_decide_eq_true_2.
  - by rewrite !bool_decide_eq_false_2.
Qed.

Lemma filter_mark i l :
  filter (λ n, Notification.id n ≠ i)
    (map (λ n, if decide (Notification.id n = i)
               then Notification.read n else n) l) =
  filter (λ n, Notification.id n ≠ i) l.
Proof.
  induction l as [|x l IH]; [done|]. simpl.
  destruct (decide (Notification.id x = i)) as [Hx|Hx].
  - rewrite !filter_cons_False, IH; [done|intros Hne; by apply Hne..].
  - by rewrite !filter_cons_True, IH.
Qed.

Lemma mark_mark i l :
  map (λ n, if decide (Notification.id n = i)
            then Notification.read n else n)
    (map (λ n, if decide (Notification.id n = i)
               then Notification.read n else n) l) =
  map (λ n, if decide (Notification.id n = i)
            then Notification.read n else n) l.
Proof.
  induction l as [|x l IH]; [done|]. simpl. rewrite IH. f_equal.
  destruct (decide (Notification.id x = i)) as [Hx|Hx].
  - simpl. by rewrite decide_True.
  - by rewrite decide_False.
Qed.

(** X11: dismissing the same id twice is dismissing it once, and two
    dismissals give the same store in either order. *)
Theorem dismissNotification_composes (i j : string) (s : ChatStore) :
  dismissNotification i (dismissNotification i s) = dismissNotification i s ∧
  dismissNotification i (dismissNotification j s) =
    dismissNotification j (dismissNotification i s).
Proof.
  split.
  - unfold dismissNotification at 1. unfold wasUnread.
    simpl notifications at 1 2.
    rewrite find_notification_filter_same.
    unfold dismissNotification, set_unreadNotificationsCount,
      set_notifications. simpl. f_equal.
    apply filter_id_none. intros x [Hx _]%list_elem_of_filter. done.
  - destruct (decide (i = j)) as [->|Hij]; [done|].
    assert (wasUnread i (dismissNotification j s) = wasUnread i s) as Hi.
    { unfold wasUnread. simpl.
      by rewrite find_notification_filter_other. }
    assert (wasUnread j (dismissNotification i s) = wasUnread j s) as Hj.
    { unfold wasUnread. simpl.
      by rewrite find_notification_filter_other. }
    unfold dismissNotification at 1 3. rewrite Hi, Hj.
    unfold dismissNotification, set_unreadNotificationsCount,
      set_notifications. simpl. f_equal.
    + apply filter_other_id_comm.
    + destruct (wasUnread i s), (wasUnread j s); lia.
Qed.

(** X12: marking a notification as read and then dismissing it removes the
    entries a plain dismissal removes and takes one off the count in all,
    floored at zero: the dismissal finds the entry read and leaves the count
    alone. Marking the same id twice changes the list as marking it once
    does, and takes two off the count, floored at zero. *)
Theorem mark_then_dismiss (i : string) (s : ChatStore) :
  notifications (dismissNotification i (markNotificationAsRead i s)) =
    notifications (dismissNotification i s) ∧
  unreadNotificationsCount
    (dismissNotification i (markNotificationAsRead i s)) =
    Z.max 0 (unreadNotificationsCount s - 1) ∧
  notifications (markNotificationAsRead i (markNotificationAsRead i s)) =
    notifications (markNotificationAsRead i s) ∧
  unreadNotificationsCount
    (markNotificationAsRead i (markNotificationAsRead i s)) =
    Z.max 0 (unreadNotificationsCount s - 2).
Proof.
  split_and!.
  - simpl. apply filter_mark.
  - unfold dismissNotification, wasUnread. simpl.
    rewrite find_notification_mark.
    by destruct (find_notification i (notifications s)).
  - simpl. apply mark_mark.
  - simpl. lia.
Qed.

(** ** Fetches that overlap *)

(** X13: [isLoading] and [error] are shared by [fetchUsers], [fetchMessages]
    and [searchUsers]. Each of them ends with [isLoading = false], and a
    successful one started after another has ended leaves no error. When
    two of them overlap, the one that settles first drops [isLoading] while
    the other is pending, and the error of the one that failed is still
    there after the other succeeded, in whichever order they settle: the
    half of a successful fetch after its [await] leaves [error] as it
    finds it. *)
Theorem overlapping_fetches (f g : Fetch) (e : AxiosError.t)
    (s : ChatStore) :
  fetch_whole f s = fetch_rest f (fetch_begin s) ∧
  isLoading (fetch_whole f s) = false ∧
  isLoading (fetch_rest f (fetch_begin (fetch_begin s))) = false ∧
  (fetch_failure g = None →
   error (fetch_whole g (fetch_whole f s)) = None ∧
   error (fetch_rest g s) = error s) ∧
  (fetch_failure f = Some e → fetch_failure g = None →
   error (fetch_rest g (fetch_rest f (fetch_begin (fetch_begin s)))) =
     Some (error_text e) ∧
   error (fetch_rest f (fetch_rest g (fetch_begin (fetch_begin s)))) =
     Some (error_text e)).
Proof.
  split_and!.
  - by destruct f.
  - by destruct f as [[?|?]|? [?|?]|? [?|?]].
  - by destruct f as [[?|?]|? [?|?]|? [?|?]].
  - intros Hg.
    destruct g as [[?|?]|? [?|?]|? [?|?]]; simplify_eq/=;
      by destruct f as [[?|?]|? [?|?]|? [?|?]].
  - intros Hf Hg.
    destruct f as [[?|?]|? [?|?]|? [?|?]]; simplify_eq/=;
      by destruct g as [[?|?]|? [?|?]|? [?|?]]; simplify_eq/=.
Qed.

(** The listing is refused while a conversation is being fetched, which
    then arrives. *)
Lemma overlapping_fetches_witness :
  error
    (fetchMessages_settle (resolved [m1])
       (fetchUsers_settle (rejected not_found_error)
          (fetch_begin (fetch_begin directory_of_bo)))) =
    Some "User not found" ∧
  error
    (fetchMessages "u2" (resolved [m1])
       (fetchUsers (rejected not_found_error) directory_of_bo)) = None.
Proof.
  destruct (overlapping_fetches (of_fetchUsers (rejected not_found_error))
              (of_fetchMessages "u2" (resolved [m1])) not_found_error
              directory_of_bo) as (_ & _ & _ & Hafter & Hoverlap).
  split.
  - by apply Hoverlap.
  - by apply Hafter.
Defined.

(** ** Relationship actions *)



(** ** The reply context *)

(** X15: a reply the server accepted is appended to the ledger and clears
    the reply context; it touches neither [lastMessageTime] nor the socket,
    so that an echo [message_sent] of the same message, if one follows, puts
    it in the ledger a second time. A reply the server refused leaves the
    store, the reply context included, as it was. *)
Theorem sendReplyMessage_effect (Date_getTime : string → EpochTime)
    (receiverId content : string) (replyToId : option string)
    (newMessage : Message.t) (e : AxiosError.t) (w : World) :
  let sent :=
    sendReplyMessage receiverId content replyToId (resolved newMessage) w in
  messages (store sent) = messages (store w) ++ [newMessage] ∧
  replyTo (store sent) = None ∧
  lastMessageTime (store sent) = lastMessageTime (store w) ∧
  socket sent = socket w ∧
  messages (store (with_store (on_message_sent Date_getTime newMessage) sent))
    = messages (store w) ++ [newMessage; newMessage] ∧
  store (sendReplyMessage receiverId content replyToId (rejected e) w) =
    store w.
Proof.
  simpl. split_and!; try done. by rewrite <- (assoc_L (++)).
Qed.

(** ** Guards of the connection *)

(** X16: [disconnectSocket] does nothing when the store is not connected,
    and twice is once; it keeps the presence set, the ledger and the
    notifications of the session it ends. [initSocket] for another user
    while connected is ignored whole: the socket stays authenticated as the
    first user, who is the only one announced. *)
Theorem connection_guards (userId userId' : string) (w : World) :
  (isConnected (store w) = false → disconnectSocket w = w) ∧
  disconnectSocket (disconnectSocket w) = disconnectSocket w ∧
  (onlineUsers (store (disconnectSocket w)) = onlineUsers (store w) ∧
   messages (store (disconnectSocket w)) = messages (store w) ∧
   notifications (store (disconnectSocket w)) = notifications (store w) ∧
   unreadNotificationsCount (store (disconnectSocket w)) =
     unreadNotificationsCount (store w)) ∧
  initSocket userId' (initSocket userId w) = initSocket userId w ∧
  (isConnected (store w) = false →
   auth (socket (initSocket userId' (initSocket userId w))) = Some userId ∧
   emitted (socket (initSocket userId' (initSocket userId w))) =
     emitted (socket w) ++ [emit_user_connected userId]).
Proof.
  assert (initSocket userId' (initSocket userId w) = initSocket userId w)
    as Hsame.
  { unfold initSocket at 1. by rewrite initSocket_connected. }
  split_and!.
  - intros Hc. unfold disconnectSocket. by rewrite Hc.
  - unfold disconnectSocket.
    destruct (isConnected (store w)) eqn:Hc; simpl; by rewrite ?Hc.
  - unfold disconnectSocket. by destruct (isConnected (store w)).
  - unfold disconnectSocket. by destruct (isConnected (store w)).
  - unfold disconnectSocket. by destruct (isConnected (store w)).
  - unfold disconnectSocket. by destruct (isConnected (store w)).
  - done.
  - intros Hc. rewrite Hsame. unfold initSocket. by rewrite Hc.
Qed.

Lemma connection_guards_witness :
  disconnectSocket initialWorld = initialWorld ∧
  auth (socket (initSocket "u2" (initSocket "u1" initialWorld))) = Some "u1".
Proof.
  destruct (connection_guards "u1" "u2" initialWorld)
    as (Hoff & _ & _ & _ & Hfirst).
  split; [by apply Hoff|]. by apply Hfirst.
Defined.
